(** * The audio-splitter Lambda (lambda/audio-splitter/index.js)

    A shallow embedding of the handler and of the five functions it is built
    from, and the properties of the pipeline stated over that embedding.

    Conventions of the model.
    - A JavaScript number that carries a time in seconds is a [JsNumber]: a
      finite value, taken as an exact rational ([Q]), or NaN. A value the
      code computes from constants and a loop counter alone is a [Q]; a loop
      counter or a segment index is a [nat].
    - Every asynchronous function is a computation in the monad [M]: it
      threads the [World] (object store, the files under /tmp, the log of
      calls made to the outside) and either completes normally or throws.
    - What the outside world answers (faults of the object store, what
      ffprobe, ffmpeg and the transcription service do, the clock) is an
      [Env]; every theorem quantifies over it.
    - [console.log], [console.warn] and [console.error] are not modelled. *)

From Stdlib Require Import QArith Qround Qminmax Lqa ZArith Lia Ascii String.
From stdpp Require Import gmap strings list pretty.

Local Open Scope string_scope.

(** ** JavaScript numbers *)

(** What [parseFloat] returns for what ffprobe prints: a finite number, or
    NaN when there is no number to read (a missing duration, or N/A). The
    infinities are not modelled: ffprobe does not print them, and the only
    division the code makes is by the constant 12600. *)
Inductive JsNumber : Type :=
| Num (q : Q)
| NaN.

Coercion Num : Q >-> JsNumber.
Bind Scope Q_scope with JsNumber.

(** [a + b], [a - b], [a / b], [Math.min(a, b)], [Math.ceil(a)]: NaN as soon
    as an operand is NaN. [0 / 0] is NaN; [x / 0] would be an infinity and is
    given as NaN too. *)
Definition js_add (a b : JsNumber) : JsNumber :=
  match a, b with Num x, Num y => Num (x + y) | _, _ => NaN end.

Definition js_sub (a b : JsNumber) : JsNumber :=
  match a, b with Num x, Num y => Num (x - y) | _, _ => NaN end.

Definition js_div (a b : JsNumber) : JsNumber :=
  match a, b with
  | Num x, Num y => if Qeq_bool y 0 then NaN else Num (x / y)
  | _, _ => NaN
  end.

Definition js_min (a b : JsNumber) : JsNumber :=
  match a, b with Num x, Num y => Num (Qmin x y) | _, _ => NaN end.

Definition js_ceil (a : JsNumber) : JsNumber :=
  match a with Num x => Num (inject_Z (Qceiling x)) | NaN => NaN end.

(** [a <= b]: false as soon as an operand is NaN. *)
Definition js_leb (a b : JsNumber) : bool :=
  match a, b with Num x, Num y => Qle_bool x y | _, _ => false end.

(** How often the body of [for (let i = 0; i < n; i++)] runs: [i < n] is
    false at once when [n] is NaN or not positive. *)
Definition iterations (n : JsNumber) : nat :=
  match n with Num x => Z.to_nat (Qceiling x) | NaN => O end.

(** ** Values exchanged with the outside *)

Definition Blob := list Byte.byte.

(** A JavaScript [Error]: the two fields the handler reads. *)
Record JsError := mkError { message : string; stack : string }.

Inductive Completion (A : Type) : Type :=
| Normal (a : A)
| Thrown (e : JsError).
Arguments Normal {A} a.
Arguments Thrown {A} e.

(** The [Metadata] map of [s3.putObject]: keys and string values. *)
Definition S3Metadata := list (string * string).

Record PutObjectRequest := mkPut {
  put_Bucket : string;
  put_Key : string;
  put_Body : Blob;
  put_ContentType : string;
  put_Metadata : S3Metadata
}.

Record S3Object := mkObject {
  Body : Blob;
  ContentType : string;
  Metadata : S3Metadata
}.

(** [metadata.format] as ffprobe reports it, after [parseFloat] and
    [parseInt]. *)
Record FfprobeFormat := mkFormat {
  format_duration : JsNumber;
  format_size : JsNumber;
  format_name : string
}.

Record TranscribeParams := mkParams {
  TranscriptionJobName : string;
  MediaFileUri : string;
  MediaFormat : string;
  LanguageCode : string;
  OutputBucketName : option string;
  OutputKey : string
}.

(** [result.TranscriptionJob], opaque to this code. *)
Definition TranscriptionJobInfo := string.

(** One call made to the outside, as it was requested (whether it then
    succeeded or not). *)
Inductive Event : Type :=
| S3GetObject (bucket key : string)
| S3PutObject (req : PutObjectRequest)
| FsWriteFile (path : string) (data : Blob)
| FsReadFile (path : string)
| FsUnlink (path : string)
| Ffprobe (path : string)
| Ffmpeg (input : string) (seekInput duration : Q) (audioCodec output : string)
| StartTranscriptionJob (params : TranscribeParams).

Record World := mkWorld {
  objects : gmap (string * string) S3Object;  (* the object store *)
  tmp : gmap string Blob;                     (* local files *)
  calls : list Event;                         (* oldest first *)
  clockReads : nat                            (* calls of Date.now() so far *)
}.

Record Env := mkEnv {
  dateNow : nat -> N;                (* what the n-th Date.now() returns *)
  errorStack : string -> string;     (* the stack of [new Error(msg)] *)
  numberToString : JsNumber -> string;   (* Number.prototype.toString *)
  getFault : World -> string -> string -> option JsError;
  putFault : World -> PutObjectRequest -> option JsError;
  writeFault : World -> string -> Blob -> option JsError;
  unlinkFault : World -> string -> option JsError;
  unlinkLanded : World -> string -> bool;  (* has an unlink that was started
                                              and not awaited removed the file
                                              when the code goes on? *)
  probe : World -> Blob -> Completion FfprobeFormat;
  transcode : World -> Blob -> Q -> Q -> string -> Completion Blob;
  startJob : World -> TranscribeParams -> Completion TranscriptionJobInfo
}.

(** ** The monad of asynchronous functions *)

Definition M (A : Type) : Type := World -> Completion A * World.

Definition ret {A} (a : A) : M A := fun w => (Normal a, w).

Definition throw {A} (e : JsError) : M A := fun w => (Thrown e, w).

Definition bind {A B} (m : M A) (k : A -> M B) : M B :=
  fun w =>
    match m w with
    | (Normal a, w') => k a w'
    | (Thrown e, w') => (Thrown e, w')
    end.

(** [try { m } catch (error) { h error }] *)
Definition try_catch {A} (m : M A) (h : JsError -> M A) : M A :=
  fun w =>
    match m w with
    | (Normal a, w') => (Normal a, w')
    | (Thrown e, w') => h e w'
    end.

Notation "x <- m ;; k" := (bind m (fun x => k))
  (at level 100, m at next level, right associativity).
Notation "m ;;; k" := (bind m (fun _ => k))
  (at level 100, right associativity).

(** ** World updates *)

Definition log (ev : Event) (w : World) : World :=
  mkWorld (objects w) (tmp w) (calls w ++ [ev])%list (clockReads w).

Definition set_objects (o : gmap (string * string) S3Object) (w : World) : World :=
  mkWorld o (tmp w) (calls w) (clockReads w).

Definition set_tmp (t : gmap string Blob) (w : World) : World :=
  mkWorld (objects w) t (calls w) (clockReads w).

(** ** Records of the pipeline *)

(** [{ s3Key, bucketName } = event]: a field is absent or a string. *)
Record LambdaEvent := mkEvent {
  ev_s3Key : option string;
  ev_bucketName : option string
}.

(** What [analyzeAudioFile] resolves to. *)
Record AudioInfo := mkAudioInfo {
  audio_duration : JsNumber;
  audio_size : JsNumber;
  audio_format : string
}.

(** An element of [segments] in [splitAudioFile]. *)
Record Segment := mkSegment {
  seg_index : nat;
  seg_path : string;
  seg_startTime : Q;
  seg_duration : JsNumber
}.

(** An element of [segmentUrls] in [uploadSegments]. *)
Record SegmentUrl := mkSegmentUrl {
  su_url : string;
  su_key : string;
  su_index : nat;
  su_startTime : Q;
  su_duration : JsNumber
}.

(** An element of [transcriptionJobs] in [triggerTranscriptionJobs]. *)
Record TranscriptionJobEntry := mkJob {
  job_jobName : string;
  job_segmentIndex : nat;
  job_status : string;
  job_transcriptionJob : TranscriptionJobInfo
}.

(** The [body] of the handler's result; [status] is the tag. *)
Inductive ResponseBody : Type :=
| NoSplitNeeded (duration : JsNumber) (msg : string)
| SplitComplete (originalFile : string) (segments : nat)
                (segmentUrls : list SegmentUrl) (originalDuration : JsNumber)
| ErrorBody (msg : string) (stk : string).

Definition status (b : ResponseBody) : string :=
  match b with
  | NoSplitNeeded _ _ => "no-split-needed"
  | SplitComplete _ _ _ _ => "split-complete"
  | ErrorBody _ _ => "error"
  end.

Record Response := mkResponse { statusCode : Z; body : ResponseBody }.

(** ** String helpers *)

(** [!v] for a field that is absent or a string. *)
Definition falsy (v : option string) : bool :=
  match v with
  | None => true
  | Some s => if decide (s = "") then true else false
  end.

(** The character class [[^/.]]. *)
Definition ext_char (c : ascii) : bool :=
  negb (Ascii.eqb c "/") && negb (Ascii.eqb c ".").

Fixpoint all_ext_chars (s : string) : bool :=
  match s with
  | EmptyString => true
  | String c r => ext_char c && all_ext_chars r
  end.

(** Does [/\.[^/.]+$/] match the whole of [s]? *)
Definition is_extension (s : string) : bool :=
  match s with
  | String c (String d r) => Ascii.eqb c "." && all_ext_chars (String d r)
  | _ => false
  end.

(** [s.replace(/\.[^/.]+$/, '')]: the leftmost match is replaced; it runs to
    the end of the string. *)
Fixpoint removeExtension (s : string) : string :=
  match s with
  | EmptyString => EmptyString
  | String c r => if is_extension s then EmptyString else String c (removeExtension r)
  end.

(** [s.split(sep)] for a one-character separator. *)
Fixpoint split (sep : ascii) (s : string) : list string :=
  match s with
  | EmptyString => [EmptyString]
  | String c r =>
      if Ascii.eqb c sep then EmptyString :: split sep r
      else match split sep r with
           | h :: t => String c h :: t
           | [] => [String c EmptyString]
           end
  end.

Definition segmentKeyOf (baseKey : string) (index : nat) : string :=
  baseKey +:+ "_segment_" +:+ pretty index +:+ ".mp3".

Definition fourHoursInSeconds : Q := 4 * 60 * 60.

Definition segmentDuration : Q := 3.5 * 60 * 60.

Section Lambda.

Variable env : Env.

Definition newError (msg : string) : JsError := mkError msg (errorStack env msg).

(** ** The services the code calls *)

Definition Date_now : M N :=
  fun w => (Normal (dateNow env (clockReads w)),
            mkWorld (objects w) (tmp w) (calls w) (S (clockReads w))).

(** [s3.getObject({Bucket, Key}).promise()] *)
Definition s3_getObject (bucket key : string) : M S3Object :=
  fun w =>
    let w' := log (S3GetObject bucket key) w in
    match getFault env w bucket key with
    | Some e => (Thrown e, w')
    | None =>
        match objects w !! (bucket, key) with
        | Some o => (Normal o, w')
        | None => (Thrown (newError "The specified key does not exist."), w')
        end
    end.

(** [s3.putObject(req).promise()]: a successful put stores the object under
    (Bucket, Key), replacing what was there. *)
Definition s3_putObject (req : PutObjectRequest) : M unit :=
  fun w =>
    let w' := log (S3PutObject req) w in
    match putFault env w req with
    | Some e => (Thrown e, w')
    | None =>
        (Normal tt,
         set_objects (<[(put_Bucket req, put_Key req) :=
                          mkObject (put_Body req) (put_ContentType req) (put_Metadata req)]>
                        (objects w')) w')
    end.

Definition writeFile (path : string) (data : Blob) : M unit :=
  fun w =>
    let w' := log (FsWriteFile path data) w in
    match writeFault env w path data with
    | Some e => (Thrown e, w')
    | None => (Normal tt, set_tmp (<[path := data]> (tmp w')) w')
    end.

Definition readFile (path : string) : M Blob :=
  fun w =>
    let w' := log (FsReadFile path) w in
    match tmp w !! path with
    | Some data => (Normal data, w')
    | None => (Thrown (newError ("ENOENT: no such file or directory, open '" +:+ path +:+ "'")), w')
    end.

(** [await unlink(path)]: when it fails the file is where it was. *)
Definition unlink (path : string) : M unit :=
  fun w =>
    let w' := log (FsUnlink path) w in
    match unlinkFault env w path with
    | Some e => (Thrown e, w')
    | None =>
        match tmp w !! path with
        | Some _ => (Normal tt, set_tmp (delete path (tmp w')) w')
        | None => (Thrown (newError ("ENOENT: no such file or directory, unlink '" +:+ path +:+ "'")), w')
        end
    end.

(** [fs.unlink(path, cb)] with a callback that only warns: the unlink is
    started and the code goes on without waiting for it. Whether the file is
    gone by then is up to the outside: the unlink may still be in flight, or
    may have failed. *)
Definition unlink_detached (path : string) : M unit :=
  fun w =>
    let w' := log (FsUnlink path) w in
    if unlinkLanded env w path
    then (Normal tt, set_tmp (delete path (tmp w')) w')
    else (Normal tt, w').

(** [ffmpeg.ffprobe(path, (err, metadata) => ...)]: [Thrown] is the [err] of
    the callback. *)
Definition ffprobe (path : string) : M FfprobeFormat :=
  fun w =>
    let w' := log (Ffprobe path) w in
    match tmp w !! path with
    | Some data => (probe env w data, w')
    | None => (Thrown (newError (path +:+ ": No such file or directory")), w')
    end.

(** [ffmpeg(input).seekInput(s).duration(d).audioCodec(c)...save(output)]:
    the 'end' event is [Normal], the 'error' event is [Thrown]; on 'end' the
    output file exists. *)
Definition ffmpeg_save (input : string) (s d : Q) (c output : string) : M unit :=
  fun w =>
    let w' := log (Ffmpeg input s d c output) w in
    match tmp w !! input with
    | Some data =>
        match transcode env w data s d c with
        | Normal out => (Normal tt, set_tmp (<[output := out]> (tmp w')) w')
        | Thrown e => (Thrown e, w')
        end
    | None => (Thrown (newError (input +:+ ": No such file or directory")), w')
    end.

(** [transcribe.startTranscriptionJob(params).promise()] *)
Definition transcribe_startTranscriptionJob (params : TranscribeParams)
  : M TranscriptionJobInfo :=
  fun w => (startJob env w params, log (StartTranscriptionJob params) w).

(** ** analyzeAudioFile *)

Definition analyzeAudioFile (s3Key bucketName : string) : M AudioInfo :=
  try_catch
    (now <- Date_now ;;
     let tempInputPath := "/tmp/input_" +:+ pretty now +:+ ".mp3" in
     s3Object <- s3_getObject bucketName s3Key ;;
     writeFile tempInputPath (Body s3Object) ;;;
     (* the ffprobe callback: [if (err) { reject(err); return; }] *)
     format <- ffprobe tempInputPath ;;
     (* [fs.unlink(tempInputPath, cb)], then [resolve(...)] at once *)
     unlink_detached tempInputPath ;;;
     ret (mkAudioInfo (format_duration format) (format_size format) (format_name format)))
    (fun error => throw error).

(** ** splitAudioFile *)

(** The body of [for (let i = 0; i < numSegments; i++)]; [todo] is the
    number of iterations left, [numSegments - i]. *)
Fixpoint createSegments (segmentDuration : Q) (tempInputPath : string)
    (totalDuration : JsNumber)
    (todo i : nat) (segments : list Segment) : M (list Segment) :=
  match todo with
  | O => ret segments
  | S todo' =>
      let startTime := (inject_Z (Z.of_nat i) * segmentDuration)%Q in
      now <- Date_now ;;
      let segmentPath := "/tmp/segment_" +:+ pretty i +:+ "_" +:+ pretty now +:+ ".mp3" in
      ffmpeg_save tempInputPath startTime segmentDuration "mp3" segmentPath ;;;
      createSegments segmentDuration tempInputPath totalDuration todo' (S i)
        (segments ++ [mkSegment i segmentPath startTime
                        (js_min segmentDuration (js_sub totalDuration startTime))])%list
  end.

(** [splitAudioFile] with its local constant [segmentDuration] as a
    parameter. *)
Definition splitAudioFileWith (segmentDuration : Q)
    (s3Key bucketName : string) (totalDuration : JsNumber) : M (list Segment) :=
  now <- Date_now ;;
  let tempInputPath := "/tmp/input_" +:+ pretty now +:+ ".mp3" in
  s3Object <- s3_getObject bucketName s3Key ;;
  writeFile tempInputPath (Body s3Object) ;;;
  let numSegments := js_ceil (js_div totalDuration segmentDuration) in
  segments <- createSegments segmentDuration tempInputPath totalDuration
                (iterations numSegments) 0 [] ;;
  unlink tempInputPath ;;;
  ret segments.

Definition splitAudioFile : string -> string -> JsNumber -> M (list Segment) :=
  splitAudioFileWith segmentDuration.

(** ** uploadSegments *)

Definition segmentMetadata (originalS3Key : string) (segment : Segment) : S3Metadata :=
  [("original-file", originalS3Key);
   ("segment-index", pretty (seg_index segment));
   ("segment-start-time", numberToString env (seg_startTime segment));
   ("segment-duration", numberToString env (seg_duration segment))].

Fixpoint uploadLoop (bucketName originalS3Key baseKey : string)
    (segments : list Segment) (segmentUrls : list SegmentUrl) : M (list SegmentUrl) :=
  match segments with
  | [] => ret segmentUrls
  | segment :: rest =>
      let segmentKey := segmentKeyOf baseKey (seg_index segment) in
      segmentUrls' <-
        try_catch
          (segmentData <- readFile (seg_path segment) ;;
           s3_putObject (mkPut bucketName segmentKey segmentData "audio/mpeg"
                           (segmentMetadata originalS3Key segment)) ;;;
           let segmentUrl := "s3://" +:+ bucketName +:+ "/" +:+ segmentKey in
           ret (segmentUrls ++ [mkSegmentUrl segmentUrl segmentKey (seg_index segment)
                                  (seg_startTime segment) (seg_duration segment)])%list)
          (fun error => throw error) ;;
      uploadLoop bucketName originalS3Key baseKey rest segmentUrls'
  end.

Definition uploadSegments (segments : list Segment) (bucketName originalS3Key : string)
  : M (list SegmentUrl) :=
  let baseKey := removeExtension originalS3Key in
  uploadLoop bucketName originalS3Key baseKey segments [].

(** ** cleanupTempFiles *)

Fixpoint cleanupTempFiles (segments : list Segment) : M unit :=
  match segments with
  | [] => ret tt
  | segment :: rest =>
      try_catch (unlink (seg_path segment)) (fun error => ret tt) ;;;
      cleanupTempFiles rest
  end.

(** ** triggerTranscriptionJobs *)

Fixpoint triggerLoop (segmentUrls : list SegmentUrl)
    (transcriptionJobs : list TranscriptionJobEntry) : M (list TranscriptionJobEntry) :=
  match segmentUrls with
  | [] => ret transcriptionJobs
  | segment :: rest =>
      now <- Date_now ;;
      let jobName := "boardbreeze-segment-" +:+ pretty (su_index segment) +:+ "-" +:+ pretty now in
      transcriptionJobs' <-
        try_catch
          (let params :=
             mkParams jobName (su_url segment) "mp3" "en-US"
               (split "/" (su_url segment) !! 2%nat)
               ("transcriptions/" +:+ jobName +:+ ".json") in
           result <- transcribe_startTranscriptionJob params ;;
           ret (transcriptionJobs ++ [mkJob jobName (su_index segment) "STARTED" result])%list)
          (* Don't throw here - we want to continue with other segments *)
          (fun error => ret transcriptionJobs) ;;
      triggerLoop rest transcriptionJobs'
  end.

Definition triggerTranscriptionJobs (segmentUrls : list SegmentUrl)
  : M (list TranscriptionJobEntry) :=
  triggerLoop segmentUrls [].

(** ** handler *)

Definition handler (event : LambdaEvent) : M Response :=
  try_catch
    (if falsy (ev_s3Key event) || falsy (ev_bucketName event)
     then throw (newError "Missing required parameters: s3Key and bucketName")
     else
       let s3Key := default "" (ev_s3Key event) in
       let bucketName := default "" (ev_bucketName event) in
       audioInfo <- analyzeAudioFile s3Key bucketName ;;
       if js_leb (audio_duration audioInfo) fourHoursInSeconds
       then ret (mkResponse 200
                   (NoSplitNeeded (audio_duration audioInfo)
                                  "File is within AWS Transcribe limits"))
       else
         segments <- splitAudioFile s3Key bucketName (audio_duration audioInfo) ;;
         segmentUrls <- uploadSegments segments bucketName s3Key ;;
         cleanupTempFiles segments ;;;
         ret (mkResponse 200
                (SplitComplete s3Key (length segmentUrls) segmentUrls
                               (audio_duration audioInfo))))
    (fun error => ret (mkResponse 500 (ErrorBody (message error) (stack error)))).

End Lambda.

(** * Which calls a computation makes *)

Definition is_put (ev : Event) : bool :=
  match ev with S3PutObject _ => true | _ => false end.
Definition is_get (ev : Event) : bool :=
  match ev with S3GetObject _ _ => true | _ => false end.
Definition is_ffmpeg (ev : Event) : bool :=
  match ev with Ffmpeg _ _ _ _ _ => true | _ => false end.
Definition is_startJob (ev : Event) : bool :=
  match ev with StartTranscriptionJob _ => true | _ => false end.

(** [emits P m]: whatever [m] does, the calls it adds to the log all satisfy
    [P]. *)
Definition emits {A} (P : Event -> bool) (m : M A) : Prop :=
  forall w r w', m w = (r, w') ->
    exists evs, calls w' = (calls w ++ evs)%list /\ Forall (fun ev => P ev = true) evs.


(** The calls each stage may make. *)
Definition probe_call (ev : Event) : bool :=
  match ev with
  | S3GetObject _ _ | FsWriteFile _ _ | Ffprobe _ | FsUnlink _ => true
  | _ => false
  end.

Definition split_call (ev : Event) : bool :=
  match ev with
  | S3GetObject _ _ | FsWriteFile _ _ | Ffmpeg _ _ _ _ _ | FsUnlink _ => true
  | _ => false
  end.

Definition upload_call (ev : Event) : bool :=
  match ev with
  | FsReadFile _ | S3PutObject _ => true
  | _ => false
  end.

Definition cleanup_call (ev : Event) : bool :=
  match ev with
  | FsUnlink _ => true
  | _ => false
  end.

(** ** A concrete outside world, for the examples

    The clock ticks once per reading; ffprobe reports [d] seconds unless the
    file is not [decodable]; ffmpeg copies its input; a put to [failingKey]
    and a submission of [failingUri] are refused; everything else succeeds,
    and an unlink that is not awaited has removed its file when the code
    goes on. *)
Definition scenario (d : JsNumber) (decodable : bool)
    (failingKey failingUri : option string) : Env :=
  mkEnv
    (fun n => (1700000000000 + N.of_nat n)%N)
    (fun msg => "Error: " +:+ msg)
    (fun n => match n with Num q => pretty (Qfloor q) | NaN => "NaN" end)
    (fun _ _ _ => None)
    (fun _ req =>
       if decide (Some (put_Key req) = failingKey)
       then Some (mkError "SlowDown" "SlowDown: at putObject") else None)
    (fun _ _ _ => None)
    (fun _ _ => None)
    (fun _ _ => true)
    (fun _ _ =>
       if decodable then Normal (mkFormat d 1024 "mp3")
       else Thrown (mkError "ffprobe exited with code 1" "Error: ffprobe exited with code 1"))
    (fun _ data _ _ _ => Normal data)
    (fun _ params =>
       if decide (Some (MediaFileUri params) = failingUri)
       then Thrown (mkError "LimitExceededException" "LimitExceededException: at startTranscriptionJob")
       else Normal "IN_PROGRESS").

Definition meetingEvent : LambdaEvent := mkEvent (Some "meeting.mp3") (Some "bkt").

Definition meetingWorld : World :=
  mkWorld {[ ("bkt", "meeting.mp3") := mkObject [] "audio/mpeg" [] ]} ∅ [] 0.

(** ** What a segment records, and what its extraction asked of ffmpeg *)

(** The time window a segment stands for. *)
Definition window (seg : Segment) : nat * Q * JsNumber :=
  (seg_index seg, seg_startTime seg, seg_duration seg).

Definition sumQ (l : list Q) : Q := fold_right Qplus 0%Q l.

(** JavaScript's [a < b], [a <= b] and [a === b] on numbers: never true of
    NaN. *)
Definition js_lt (a b : JsNumber) : Prop :=
  match a, b with Num x, Num y => (x < y)%Q | _, _ => False end.

Definition js_le (a b : JsNumber) : Prop :=
  match a, b with Num x, Num y => (x <= y)%Q | _, _ => False end.

Definition js_eq (a b : JsNumber) : Prop :=
  match a, b with Num x, Num y => (x == y)%Q | _, _ => False end.

(** The sum of a list of numbers. *)
Definition sumJs (l : list JsNumber) : JsNumber := fold_right js_add (Num 0) l.

(** Three published segments of the meeting, as uploadSegments returns
    them. *)
Definition publishedMeeting : list SegmentUrl :=
  [mkSegmentUrl "s3://bkt/meeting_segment_0.mp3" "meeting_segment_0.mp3" 0 0 12600;
   mkSegmentUrl "s3://bkt/meeting_segment_1.mp3" "meeting_segment_1.mp3" 1 12600 12600;
   mkSegmentUrl "s3://bkt/meeting_segment_2.mp3" "meeting_segment_2.mp3" 2 25200 4800].

(** Did the submission complete normally? *)
Definition accepted {A} (c : Completion A) : bool :=
  match c with Normal _ => true | Thrown _ => false end.

(** ** Further vocabulary for the properties of the stages *)

(** Does the character occur in the string? *)
Fixpoint occurs (c : ascii) (s : string) : bool :=
  match s with
  | EmptyString => false
  | String d r => Ascii.eqb d c || occurs c r
  end.

(** The entry uploadSegments pushes for a segment it has stored. *)
Definition segmentUrlOf (bucketName baseKey : string) (segment : Segment) : SegmentUrl :=
  mkSegmentUrl ("s3://" +:+ bucketName +:+ "/" +:+ segmentKeyOf baseKey (seg_index segment))
    (segmentKeyOf baseKey (seg_index segment))
    (seg_index segment) (seg_startTime segment) (seg_duration segment).



(** [steps R m]: every run of [m] takes a world to one related to it by
    [R]. *)
Definition steps {A} (R : World -> World -> Prop) (m : M A) : Prop :=
  forall w r w', m w = (r, w') -> R w w'.

(** The object under [x] and the local file [p] are as they were. *)
Definition untouched (x : string * string) (p : string) (w w' : World) : Prop :=
  objects w' !! x = objects w !! x /\ tmp w' !! p = tmp w !! p.


Section Emits.

Variable env : Env.
Variable P : Event -> bool.

Lemma emits_ret {A} (a : A) : emits P (ret a).
Proof.
  intros w r w' H. injection H as <- <-. exists []. rewrite app_nil_r. auto.
Qed.

Lemma emits_throw {A} (e : JsError) : emits P (@throw A e).
Proof.
  intros w r w' H. injection H as <- <-. exists []. rewrite app_nil_r. auto.
Qed.

Lemma emits_bind {A B} (m : M A) (k : A -> M B) :
  emits P m -> (forall a, emits P (k a)) -> emits P (bind m k).
Proof.
  intros Hm Hk w r w' H. unfold bind in H.
  destruct (m w) as [[a|e] w1] eqn:E.
  - destruct (Hm _ _ _ E) as (evs1 & E1 & F1).
    destruct (Hk a _ _ _ H) as (evs2 & E2 & F2).
    exists (evs1 ++ evs2)%list. rewrite E2, E1, <- app_assoc. split; [reflexivity|].
    apply Forall_app; auto.
  - injection H as <- <-. eauto.
Qed.

Lemma emits_try_catch {A} (m : M A) (h : JsError -> M A) :
  emits P m -> (forall e, emits P (h e)) -> emits P (try_catch m h).
Proof.
  intros Hm Hh w r w' H. unfold try_catch in H.
  destruct (m w) as [[a|e] w1] eqn:E.
  - injection H as <- <-. eauto.
  - destruct (Hm _ _ _ E) as (evs1 & E1 & F1).
    destruct (Hh e _ _ _ H) as (evs2 & E2 & F2).
    exists (evs1 ++ evs2)%list. rewrite E2, E1, <- app_assoc. split; [reflexivity|].
    apply Forall_app; auto.
Qed.

Lemma emits_Date_now : emits P (Date_now env).
Proof.
  intros w r w' H. injection H as <- <-. exists []. simpl. rewrite app_nil_r. auto.
Qed.

(** A service call logs exactly one event. *)
Lemma emits_one {A} (ev : Event) (m : M A) :
  P ev = true -> (forall w, calls (snd (m w)) = (calls w ++ [ev])%list) -> emits P m.
Proof.
  intros HP Hm w r w' H. exists [ev]. split; [|auto].
  specialize (Hm w). rewrite H in Hm. exact Hm.
Qed.

Ltac one_call HP :=
  apply (emits_one _ _ HP); intros w;
  unfold s3_getObject, s3_putObject, writeFile, readFile, unlink, unlink_detached, ffprobe,
    ffmpeg_save, transcribe_startTranscriptionJob;
  repeat case_match; reflexivity.

Lemma emits_getObject b k : P (S3GetObject b k) = true -> emits P (s3_getObject env b k).
Proof. intros HP. one_call HP. Qed.

Lemma emits_putObject req : P (S3PutObject req) = true -> emits P (s3_putObject env req).
Proof. intros HP. one_call HP. Qed.

Lemma emits_writeFile p d : P (FsWriteFile p d) = true -> emits P (writeFile env p d).
Proof. intros HP. one_call HP. Qed.

Lemma emits_readFile p : P (FsReadFile p) = true -> emits P (readFile env p).
Proof. intros HP. one_call HP. Qed.

Lemma emits_unlink p : P (FsUnlink p) = true -> emits P (unlink env p).
Proof. intros HP. one_call HP. Qed.

Lemma emits_unlink_detached p : P (FsUnlink p) = true -> emits P (unlink_detached env p).
Proof. intros HP. one_call HP. Qed.

Lemma emits_ffprobe p : P (Ffprobe p) = true -> emits P (ffprobe env p).
Proof. intros HP. one_call HP. Qed.

Lemma emits_ffmpeg_save i s d c o :
  P (Ffmpeg i s d c o) = true -> emits P (ffmpeg_save env i s d c o).
Proof. intros HP. one_call HP. Qed.

Lemma emits_startTranscriptionJob params :
  P (StartTranscriptionJob params) = true ->
  emits P (transcribe_startTranscriptionJob env params).
Proof. intros HP. one_call HP. Qed.

End Emits.

Lemma emits_weaken {A} (P P' : Event -> bool) (m : M A) :
  (forall ev, P ev = true -> P' ev = true) -> emits P m -> emits P' m.
Proof.
  intros HPP' Hm w r w' H. destruct (Hm _ _ _ H) as (evs & E & F).
  exists evs. split; [exact E|]. eapply Forall_impl; eauto.
Qed.

Section EmitsStages.

Variable env : Env.

Ltac emits_step :=
  first
    [ apply emits_ret | apply emits_throw | apply emits_Date_now
    | apply emits_getObject; reflexivity | apply emits_putObject; reflexivity
    | apply emits_writeFile; reflexivity | apply emits_readFile; reflexivity
    | apply emits_unlink; reflexivity | apply emits_unlink_detached; reflexivity
    | apply emits_ffprobe; reflexivity
    | apply emits_ffmpeg_save; reflexivity
    | apply emits_startTranscriptionJob; reflexivity
    | apply emits_bind; [|intros ?] | apply emits_try_catch; [|intros ?] ].

Lemma emits_analyzeAudioFile s3Key bucketName :
  emits probe_call (analyzeAudioFile env s3Key bucketName).
Proof. unfold analyzeAudioFile. repeat emits_step. Qed.

Lemma emits_createSegments L tempInputPath T todo :
  forall i segments, emits split_call (createSegments env L tempInputPath T todo i segments).
Proof.
  induction todo as [|todo IH]; intros i segments; simpl.
  - apply emits_ret.
  - repeat emits_step. apply IH.
Qed.

Lemma emits_splitAudioFileWith L s3Key bucketName T :
  emits split_call (splitAudioFileWith env L s3Key bucketName T).
Proof.
  unfold splitAudioFileWith. repeat emits_step.
  apply emits_createSegments.
Qed.

Lemma emits_uploadLoop bucketName originalS3Key baseKey segments :
  forall segmentUrls,
    emits upload_call (uploadLoop env bucketName originalS3Key baseKey segments segmentUrls).
Proof.
  induction segments as [|segment rest IH]; intros segmentUrls; simpl.
  - apply emits_ret.
  - repeat emits_step. apply IH.
Qed.

Lemma emits_uploadSegments segments bucketName originalS3Key :
  emits upload_call (uploadSegments env segments bucketName originalS3Key).
Proof. apply emits_uploadLoop. Qed.

Lemma emits_cleanupTempFiles segments :
  emits cleanup_call (cleanupTempFiles env segments).
Proof.
  induction segments as [|segment rest IH]; simpl.
  - apply emits_ret.
  - repeat emits_step. apply IH.
Qed.

Lemma emits_triggerLoop segmentUrls :
  forall jobs, emits is_startJob (triggerLoop env segmentUrls jobs).
Proof.
  induction segmentUrls as [|segment rest IH]; intros jobs; simpl.
  - apply emits_ret.
  - repeat emits_step. apply IH.
Qed.

(** The handler never calls the transcription service. *)
Lemma emits_handler event :
  emits (fun ev => negb (is_startJob ev)) (handler env event).
Proof.
  unfold handler. apply emits_try_catch; [|intros; apply emits_ret].
  case_match; [apply emits_throw|].
  apply emits_bind.
  { eapply emits_weaken; [|apply emits_analyzeAudioFile]. by intros []. }
  intros audioInfo. case_match; [apply emits_ret|].
  apply emits_bind.
  { eapply emits_weaken; [|apply emits_splitAudioFileWith]. by intros []. }
  intros segments. apply emits_bind.
  { eapply emits_weaken; [|apply emits_uploadSegments]. by intros []. }
  intros segmentUrls. apply emits_bind; [|intros; apply emits_ret].
  eapply emits_weaken; [|apply emits_cleanupTempFiles]. by intros [].
Qed.

End EmitsStages.

(** * JavaScript numbers *)

Lemma js_leb_le (a b : JsNumber) : js_leb a b = true <-> js_le a b.
Proof.
  destruct a as [x|], b as [y|]; simpl; try (split; [discriminate|contradiction]).
  apply Qle_bool_iff.
Qed.

Lemma js_leb_lt (a b : JsNumber) : js_lt b a -> js_leb a b = false.
Proof.
  destruct a as [x|], b as [y|]; simpl; try contradiction.
  intros H. destruct (Qle_bool x y) eqn:E; [|reflexivity].
  apply Qle_bool_iff in E. lra.
Qed.

(** Past the gate, a duration is a number above four hours or NaN. *)
Lemma js_leb_false (d : JsNumber) :
  js_leb d fourHoursInSeconds = false -> d = NaN \/ exists q, d = Num q /\ (14400 < q)%Q.
Proof.
  destruct d as [q|]; [|left; reflexivity]. simpl. intros H. right. exists q.
  split; [reflexivity|]. apply Qnot_le_lt. intros Hle.
  apply Qle_bool_iff in Hle. change 14400%Q with fourHoursInSeconds in Hle. congruence.
Qed.

(** The loop of the splitter runs [ceil(T / L)] times on a number [T]. *)
Lemma iterations_ceil_div (T L : Q) :
  iterations (js_ceil (js_div T L)) = Z.to_nat (Qceiling (T / L)).
Proof.
  unfold js_div. destruct (Qeq_bool L 0) eqn:E; simpl.
  - apply Qeq_bool_iff in E.
    assert (T / L == 0)%Q as ->; [|reflexivity].
    unfold Qdiv. rewrite E. unfold Qinv. simpl. ring.
  - rewrite Qceiling_Z. reflexivity.
Qed.

Lemma sumJs_numbers (qs : list Q) : sumJs (map Num qs) = Num (sumQ qs).
Proof.
  unfold sumJs, sumQ. induction qs as [|q qs IH]; simpl; [reflexivity|].
  rewrite IH. reflexivity.
Qed.

(** * The handler *)

Lemma analyzeAudioFile_objects env s3Key bucketName w r w' :
  analyzeAudioFile env s3Key bucketName w = (r, w') -> objects w' = objects w.
Proof.
  unfold analyzeAudioFile, try_catch, bind, Date_now, s3_getObject, writeFile, ffprobe,
    unlink_detached, ret, throw.
  intros H. repeat case_match; simplify_eq; reflexivity.
Qed.

Lemma cleanupTempFiles_normal env segments w :
  exists w', cleanupTempFiles env segments w = (Normal tt, w').
Proof.
  revert w. induction segments as [|segment rest IH]; intros w; simpl.
  - eexists; reflexivity.
  - unfold bind, try_catch, ret.
    destruct (unlink env (seg_path segment) w) as [[[]|e] w1]; apply IH.
Qed.

(** C10. When [s3Key] or [bucketName] is absent or empty, the handler
    resolves to statusCode 500 with status 'error' and the message
    'Missing required parameters: s3Key and bucketName', and the world is
    left as it was: nothing was read from or written to the object store,
    and no transcription job was submitted. *)
Theorem handler_missing_parameters env event w :
  falsy (ev_s3Key event) = true \/ falsy (ev_bucketName event) = true ->
  exists resp,
    handler env event w = (Normal resp, w) /\
    statusCode resp = 500%Z /\
    status (body resp) = "error" /\
    body resp = ErrorBody "Missing required parameters: s3Key and bucketName"
                  (errorStack env "Missing required parameters: s3Key and bucketName").
Proof.
  intros H. eexists. unfold handler, try_catch.
  assert (falsy (ev_s3Key event) || falsy (ev_bucketName event) = true) as ->.
  { apply orb_true_iff. exact H. }
  simpl. repeat split; reflexivity.
Qed.

Lemma handler_missing_parameters_witness :
  exists resp,
    handler (scenario 30000 true None None) (mkEvent None (Some "bkt")) meetingWorld
      = (Normal resp, meetingWorld) /\
    statusCode resp = 500%Z /\
    status (body resp) = "error" /\
    body resp = ErrorBody "Missing required parameters: s3Key and bucketName"
                  "Error: Missing required parameters: s3Key and bucketName".
Proof.
  apply (handler_missing_parameters (scenario 30000 true None None)
           (mkEvent None (Some "bkt")) meetingWorld).
  left. reflexivity.
Defined.

Lemma falsy_Some s : s <> "" -> falsy (Some s) = false.
Proof. intros H. unfold falsy. case_decide; [contradiction|reflexivity]. Qed.

(** The handler when both parameters are present. *)
Lemma handler_present env event s3Key bucketName w :
  ev_s3Key event = Some s3Key -> ev_bucketName event = Some bucketName ->
  s3Key <> "" -> bucketName <> "" ->
  handler env event w =
  try_catch
    (audioInfo <- analyzeAudioFile env s3Key bucketName ;;
     if js_leb (audio_duration audioInfo) fourHoursInSeconds
     then ret (mkResponse 200
                 (NoSplitNeeded (audio_duration audioInfo)
                                "File is within AWS Transcribe limits"))
     else
       segments <- splitAudioFile env s3Key bucketName (audio_duration audioInfo) ;;
       segmentUrls <- uploadSegments env segments bucketName s3Key ;;
       cleanupTempFiles env segments ;;;
       ret (mkResponse 200
              (SplitComplete s3Key (length segmentUrls) segmentUrls
                             (audio_duration audioInfo))))
    (fun error => ret (mkResponse 500 (ErrorBody (message error) (stack error)))) w.
Proof.
  intros Hk Hb Hk0 Hb0. unfold handler. rewrite Hk, Hb, !falsy_Some by assumption.
  reflexivity.
Qed.

(** The first call of the splitter is its download of the source. *)
Lemma splitAudioFileWith_first_call env L s3Key bucketName T w r w' :
  splitAudioFileWith env L s3Key bucketName T w = (r, w') ->
  exists evs, calls w' = (calls w ++ S3GetObject bucketName s3Key :: evs)%list.
Proof.
  unfold splitAudioFileWith. unfold bind at 1. unfold Date_now at 1.
  set (w0 := mkWorld _ _ _ _). set (now := dateNow env (clockReads w)).
  change (calls w) with (calls w0). clearbody w0 now.
  unfold bind at 1.
  assert (exists o, s3_getObject env bucketName s3Key w0
                    = (o, log (S3GetObject bucketName s3Key) w0)) as [o ->].
  { unfold s3_getObject. repeat case_match; eauto. }
  destruct o as [o|e]; [|intros [= <- <-]; exists []; reflexivity].
  intros H.
  assert (emits (fun _ => true)
            (writeFile env ("/tmp/input_" +:+ pretty now +:+ ".mp3") (Body o) ;;;
             segments <- createSegments env L ("/tmp/input_" +:+ pretty now +:+ ".mp3") T
                           (iterations (js_ceil (js_div T L))) 0 [] ;;
             unlink env ("/tmp/input_" +:+ pretty now +:+ ".mp3") ;;;
             ret segments)) as HK.
  { apply emits_bind; [|intros ?].
    { apply emits_writeFile; reflexivity. }
    apply emits_bind; [|intros ?].
    { eapply emits_weaken; [|apply emits_createSegments]; auto. }
    apply emits_bind; [|intros ?; apply emits_ret].
    apply emits_unlink; reflexivity. }
  destruct (HK _ _ _ H) as (evs & E & _). exists evs. rewrite E. simpl.
  rewrite <- app_assoc. reflexivity.
Qed.

(** X15. Once the probe has reported a duration [d]: if [d <= 14400] as
    JavaScript evaluates it (so [d] is a number), the handler resolves to
    the no-split-needed result carrying [d] and stops in the very world the
    probe left, so the store is unchanged and the only calls made are the
    probe's own (download, scratch write, ffprobe, unlink): no ffmpeg run,
    no put. In every other case, a larger number or NaN, the handler goes on
    and the next call is the splitter's download of the source. *)
Theorem handler_duration_gate env event s3Key bucketName w info w1 :
  ev_s3Key event = Some s3Key -> ev_bucketName event = Some bucketName ->
  s3Key <> "" -> bucketName <> "" ->
  analyzeAudioFile env s3Key bucketName w = (Normal info, w1) ->
  (js_le (audio_duration info) 14400 ->
     handler env event w
       = (Normal (mkResponse 200 (NoSplitNeeded (audio_duration info)
                                    "File is within AWS Transcribe limits")), w1) /\
     objects w1 = objects w /\
     exists evs, calls w1 = (calls w ++ evs)%list /\
       Forall (fun ev => probe_call ev = true /\ is_ffmpeg ev = false /\
                         is_put ev = false /\ is_startJob ev = false) evs) /\
  (~ js_le (audio_duration info) 14400 ->
     exists evs, calls (snd (handler env event w))
                 = (calls w1 ++ S3GetObject bucketName s3Key :: evs)%list).
Proof.
  intros Hk Hb Hk0 Hb0 Han. split.
  - intros Hd. split; [|split].
    + rewrite (handler_present _ _ _ _ _ Hk Hb Hk0 Hb0).
      unfold try_catch, bind. rewrite Han.
      assert (js_leb (audio_duration info) fourHoursInSeconds = true) as ->.
      { apply js_leb_le. exact Hd. }
      reflexivity.
    + eapply analyzeAudioFile_objects; eauto.
    + destruct (emits_analyzeAudioFile env s3Key bucketName _ _ _ Han) as (evs & E & F).
      exists evs. split; [exact E|].
      eapply Forall_impl; [exact F|]. intros [] Hev; try discriminate Hev; auto.
  - intros Hd.
    assert (js_leb (audio_duration info) fourHoursInSeconds = false) as Hgate.
    { destruct (js_leb (audio_duration info) fourHoursInSeconds) eqn:E; [|reflexivity].
      apply js_leb_le in E. contradiction. }
    rewrite (handler_present _ _ _ _ _ Hk Hb Hk0 Hb0).
    unfold try_catch, bind, ret. rewrite Han, Hgate.
    destruct (splitAudioFile env s3Key bucketName (audio_duration info) w1)
      as [[segments|e] w2] eqn:Esplit;
      destruct (splitAudioFileWith_first_call _ _ _ _ _ _ _ _ Esplit) as (evs & E).
    + destruct (uploadSegments env segments bucketName s3Key w2) as [[urls|e] w3] eqn:Eup;
        destruct (emits_uploadSegments _ _ _ _ _ _ _ Eup) as (evs3 & E3 & _).
      * destruct (cleanupTempFiles env segments w3) as [[[]|e] w4] eqn:Ecl;
          destruct (emits_cleanupTempFiles _ _ _ _ _ Ecl) as (evs4 & E4 & _);
          exists (evs ++ evs3 ++ evs4)%list; simpl; rewrite E4, E3, E; simpl;
          rewrite <- !app_assoc; reflexivity.
      * exists (evs ++ evs3)%list. simpl. rewrite E3, E. rewrite <- !app_assoc. reflexivity.
    + exists evs. simpl. exact E.
Qed.

Lemma handler_duration_gate_witness :
  handler (scenario 14400 true None None) meetingEvent meetingWorld
  = (Normal (mkResponse 200 (NoSplitNeeded 14400 "File is within AWS Transcribe limits")),
     snd (analyzeAudioFile (scenario 14400 true None None) "meeting.mp3" "bkt" meetingWorld)).
Proof.
  refine (proj1 (proj1 (handler_duration_gate (scenario 14400 true None None) meetingEvent
                          "meeting.mp3" "bkt" meetingWorld
                          (mkAudioInfo 14400 1024 "mp3") _
                          eq_refl eq_refl _ _ _) _)).
  - discriminate.
  - discriminate.
  - vm_compute. reflexivity.
  - simpl. lra.
Defined.

(** C2 fails on the code. ffprobe reports no duration for the object, so
    [parseFloat] gives NaN; [NaN <= 14400] is false and the handler takes
    the branch it logs as 'File exceeds 4 hours': the splitter downloads the
    source again, creates no segment, and the result is split-complete with
    0 segments and the duration NaN. The duration is not above 14400. *)
Lemma handler_splits_on_missing_duration :
  exists w',
    handler (scenario NaN true None None) meetingEvent meetingWorld
      = (Normal (mkResponse 200 (SplitComplete "meeting.mp3" 0 [] NaN)), w') /\
    calls w'
      = [S3GetObject "bkt" "meeting.mp3";
         FsWriteFile "/tmp/input_1700000000000.mp3" [];
         Ffprobe "/tmp/input_1700000000000.mp3";
         FsUnlink "/tmp/input_1700000000000.mp3";
         S3GetObject "bkt" "meeting.mp3";
         FsWriteFile "/tmp/input_1700000000001.mp3" [];
         FsUnlink "/tmp/input_1700000000001.mp3"] /\
    ~ js_lt 14400 NaN.
Proof.
  eexists. split; [vm_compute; reflexivity|]. split; [reflexivity|].
  intros H. exact H.
Qed.

(** C6 (amended). The handler always resolves, never rejects, and the
    result has one of three shapes: statusCode 200 with no-split-needed and
    the duration; statusCode 200 with split-complete, the original key, the
    number and the list of published segments and the original duration;
    statusCode 500 with error, the message and the stack of what was thrown.
    No transcription job is submitted on the way, so the split-complete
    result has no dispatch status to carry. *)
Theorem handler_always_resolves env event w :
  exists resp w',
    handler env event w = (Normal resp, w') /\
    ((statusCode resp = 200%Z /\
      exists d, body resp = NoSplitNeeded d "File is within AWS Transcribe limits") \/
     (statusCode resp = 200%Z /\
      exists key urls d, body resp = SplitComplete key (length urls) urls d) \/
     (statusCode resp = 500%Z /\
      exists e, body resp = ErrorBody (message e) (stack e))) /\
    status (body resp) ∈ ["no-split-needed"; "split-complete"; "error"] /\
    exists evs, calls w' = (calls w ++ evs)%list /\
                Forall (fun ev => is_startJob ev = false) evs.
Proof.
  assert (exists resp w',
    handler env event w = (Normal resp, w') /\
    ((statusCode resp = 200%Z /\
      exists d, body resp = NoSplitNeeded d "File is within AWS Transcribe limits") \/
     (statusCode resp = 200%Z /\
      exists key urls d, body resp = SplitComplete key (length urls) urls d) \/
     (statusCode resp = 500%Z /\
      exists e, body resp = ErrorBody (message e) (stack e)))) as (resp & w' & H & Hshape).
  { unfold handler, try_catch, bind, ret, throw.
    destruct (falsy (ev_s3Key event) || falsy (ev_bucketName event)).
    { do 2 eexists. split; [reflexivity|]. right; right. split; [reflexivity|eexists; reflexivity]. }
    cbv zeta.
    destruct (analyzeAudioFile env _ _ w) as [[info|e] w1].
    2:{ do 2 eexists. split; [reflexivity|]. right; right. split; [reflexivity|eexists; reflexivity]. }
    destruct (js_leb (audio_duration info) fourHoursInSeconds).
    { do 2 eexists. split; [reflexivity|]. left. split; [reflexivity|eexists; reflexivity]. }
    destruct (splitAudioFile env _ _ _ w1) as [[segments|e] w2].
    2:{ do 2 eexists. split; [reflexivity|]. right; right. split; [reflexivity|eexists; reflexivity]. }
    destruct (uploadSegments env segments _ _ w2) as [[urls|e] w3].
    2:{ do 2 eexists. split; [reflexivity|]. right; right. split; [reflexivity|eexists; reflexivity]. }
    destruct (cleanupTempFiles_normal env segments w3) as [w4 ->].
    do 2 eexists. split; [reflexivity|]. right; left. split; [reflexivity|do 3 eexists; reflexivity]. }
  exists resp, w'. split; [exact H|]. split; [exact Hshape|]. split.
  - destruct Hshape as [(_ & d & ->) | [(_ & k & u & d & ->) | (_ & e & ->)]]; simpl;
      set_solver.
  - destruct (emits_handler env event _ _ _ H) as (evs & E & F).
    exists evs. split; [exact E|].
    eapply Forall_impl; [exact F|]. intros ev Hev. simpl in Hev.
    destruct (is_startJob ev); [discriminate|reflexivity].
Qed.

(** C6, as stated, fails: a seven-hour-plus recording is split into three
    published segments and the result is split-complete, yet no
    transcription job was submitted, so there is no per-segment dispatch
    status in it. *)
Lemma handler_split_complete_without_dispatch :
  exists urls w',
    handler (scenario 30000 true None None) meetingEvent meetingWorld
      = (Normal (mkResponse 200 (SplitComplete "meeting.mp3" 3 urls 30000)), w') /\
    length urls = 3%nat /\
    List.filter is_startJob (calls w') = [].
Proof.
  do 2 eexists. split; [vm_compute; reflexivity|]. split; reflexivity.
Qed.

(** * splitAudioFile *)

Section PlanArithmetic.

Variables L T : Q.
Hypothesis L_pos : (0 < L)%Q.

Let n : nat := Z.to_nat (Qceiling (T / L)).

Lemma below_ceiling (i : nat) : (i < n)%nat -> (inject_Z (Z.of_nat i) * L < T)%Q.
Proof.
  intros Hi.
  assert (Z.of_nat i <= Qceiling (T / L) - 1)%Z as Hz by (subst n; lia).
  assert (inject_Z (Z.of_nat i) < T / L)%Q as Hq.
  { eapply Qle_lt_trans; [|apply Qceiling_lt]. rewrite <- Zle_Qle. exact Hz. }
  apply (Qmult_lt_r _ _ L L_pos) in Hq.
  assert (T / L * L == T)%Q as E by (field; lra).
  rewrite E in Hq. exact Hq.
Qed.

Lemma covers : (0 < T)%Q -> (T <= inject_Z (Z.of_nat n) * L)%Q /\ (1 <= n)%nat.
Proof.
  intros HT.
  assert (0 < T / L)%Q as Hpos.
  { apply Qlt_shift_div_l; [exact L_pos|]. lra. }
  assert (0 < Qceiling (T / L))%Z as Hc.
  { rewrite Zlt_Qlt. eapply Qlt_le_trans; [exact Hpos|apply Qle_ceiling]. }
  split; [|subst n; lia].
  assert (Z.of_nat n = Qceiling (T / L)) as -> by (subst n; lia).
  assert (T / L * L <= inject_Z (Qceiling (T / L)) * L)%Q as H.
  { apply Qmult_le_compat_r; [apply Qle_ceiling|lra]. }
  assert (T / L * L == T)%Q as E by (field; lra).
  rewrite E in H. exact H.
Qed.

End PlanArithmetic.

Lemma input_is_not_a_segment a b : "/tmp/input_" +:+ a <> "/tmp/segment_" +:+ b.
Proof. simpl. discriminate. Qed.

Section Split.

Variable env : Env.

Lemma ffmpeg_save_normal i s d c o w w' :
  ffmpeg_save env i s d c o w = (Normal tt, w') ->
  exists out, w' = set_tmp (<[o := out]> (tmp w)) (log (Ffmpeg i s d c o) w).
Proof.
  unfold ffmpeg_save. intros H. repeat case_match; simplify_eq. eauto.
Qed.

Lemma createSegments_spec L tin (T : JsNumber) todo :
  forall i acc w segs w',
    createSegments env L tin T todo i acc w = (Normal segs, w') ->
    exists new,
      segs = (acc ++ new)%list /\
      map window new
        = map (fun j => (j, (inject_Z (Z.of_nat j) * L)%Q,
                         js_min L (js_sub T (inject_Z (Z.of_nat j) * L)%Q))) (seq i todo) /\
      calls w' = (calls w ++
                  map (fun seg => Ffmpeg tin (seg_startTime seg) L "mp3" (seg_path seg)) new)%list /\
      objects w' = objects w /\
      (forall p, is_Some (tmp w !! p) -> is_Some (tmp w' !! p)) /\
      Forall (fun seg => is_Some (tmp w' !! seg_path seg) /\
                         exists rest, seg_path seg = "/tmp/segment_" +:+ rest) new.
Proof.
  induction todo as [|todo IH]; intros i acc w segs w' H; simpl in H.
  - injection H as <- <-. exists []. rewrite !app_nil_r. simpl. repeat split; auto.
  - unfold bind at 1 in H. unfold Date_now at 1 in H.
    set (w0 := mkWorld _ _ _ _) in H. set (now := dateNow env (clockReads w)) in H.
    unfold bind at 1 in H.
    destruct (ffmpeg_save env _ _ _ _ _ w0) as [[[]|e] w1] eqn:Eff; [|discriminate].
    apply ffmpeg_save_normal in Eff as [out ->].
    apply IH in H as (new & -> & Hwin & Hcalls & Hobj & Hmono & Hfiles).
    eexists (_ :: new). split; [rewrite <- app_assoc; reflexivity|].
    split; [simpl; rewrite Hwin; reflexivity|].
    split; [rewrite Hcalls; simpl; rewrite <- app_assoc; reflexivity|].
    split; [rewrite Hobj; reflexivity|].
    assert (forall p, is_Some (tmp w !! p) ->
                      is_Some (tmp (set_tmp (<[("/tmp/segment_" +:+ pretty i +:+ "_" +:+ pretty now +:+ ".mp3") := out]> (tmp w0))
                                      (log (Ffmpeg tin (inject_Z (Z.of_nat i) * L) L "mp3"
                                              ("/tmp/segment_" +:+ pretty i +:+ "_" +:+ pretty now +:+ ".mp3")) w0)) !! p)) as Hstep.
    { intros p Hp. simpl. rewrite lookup_insert. case_decide; [eauto|exact Hp]. }
    split; [intros p Hp; apply Hmono, Hstep, Hp|].
    constructor; [|exact Hfiles].
    split; [|eexists; reflexivity].
    apply Hmono. simpl. rewrite lookup_insert_eq. eauto.
Qed.


Lemma s3_getObject_normal b k w o w' :
  s3_getObject env b k w = (Normal o, w') ->
  w' = log (S3GetObject b k) w /\ objects w !! (b, k) = Some o.
Proof.
  unfold s3_getObject. intros H. repeat case_match; simplify_eq. auto.
Qed.

Lemma writeFile_normal p d w w' :
  writeFile env p d w = (Normal tt, w') ->
  w' = set_tmp (<[p := d]> (tmp w)) (log (FsWriteFile p d) w).
Proof.
  unfold writeFile. intros H. repeat case_match; simplify_eq. reflexivity.
Qed.

Lemma unlink_normal p w w' :
  unlink env p w = (Normal tt, w') ->
  w' = set_tmp (delete p (tmp w)) (log (FsUnlink p) w).
Proof.
  unfold unlink. intros H. repeat case_match; simplify_eq. reflexivity.
Qed.

(** What a normal completion of the splitter returns and leaves behind,
    for any total duration. *)
Lemma splitAudioFileWith_spec_js L s3Key bucketName (T : JsNumber) w segs w' :
  splitAudioFileWith env L s3Key bucketName T w = (Normal segs, w') ->
  exists tin o,
    map window segs
      = map (fun j => (j, (inject_Z (Z.of_nat j) * L)%Q,
                       js_min L (js_sub T (inject_Z (Z.of_nat j) * L)%Q)))
          (seq 0 (iterations (js_ceil (js_div T L)))) /\
    calls w' = (calls w ++ S3GetObject bucketName s3Key :: FsWriteFile tin (Body o) ::
                map (fun seg => Ffmpeg tin (seg_startTime seg) L "mp3" (seg_path seg)) segs
                ++ [FsUnlink tin])%list /\
    objects w' = objects w /\
    Forall (fun seg => is_Some (tmp w' !! seg_path seg)) segs.
Proof.
  unfold splitAudioFileWith. intros H.
  unfold bind at 1 in H. unfold Date_now at 1 in H.
  set (w0 := mkWorld _ _ _ _) in H. set (now := dateNow env (clockReads w)) in H.
  set (tin := "/tmp/input_" +:+ pretty now +:+ ".mp3") in H.
  unfold bind at 1 in H.
  destruct (s3_getObject env bucketName s3Key w0) as [[o|e] w1] eqn:Eget; [|discriminate].
  apply s3_getObject_normal in Eget as [-> Ho].
  unfold bind at 1 in H.
  destruct (writeFile env tin (Body o) _) as [[[]|e] w2] eqn:Ewr; [|discriminate].
  apply writeFile_normal in Ewr as ->.
  unfold bind at 1 in H.
  destruct (createSegments env L tin T _ 0 [] _) as [[segments|e] w3] eqn:Ecs; [|discriminate].
  apply createSegments_spec in Ecs as (new & -> & Hwin & Hcalls & Hobj & Hmono & Hfiles).
  unfold bind at 1 in H.
  destruct (unlink env tin w3) as [[[]|e] w4] eqn:Eun; [|discriminate].
  apply unlink_normal in Eun as ->.
  injection H as <- <-. simpl app.
  exists tin, o. split; [exact Hwin|]. split; [|split].
  - simpl. rewrite Hcalls. simpl. rewrite <- !app_assoc. reflexivity.
  - simpl. rewrite Hobj. reflexivity.
  - eapply Forall_impl; [exact Hfiles|]. intros seg [Hin [rest Hp]]. simpl.
    rewrite lookup_delete_ne; [exact Hin|].
    rewrite Hp. apply input_is_not_a_segment.
Qed.

(** The same when the total duration is a number. *)
Lemma splitAudioFileWith_spec L s3Key bucketName (T : Q) w segs w' :
  splitAudioFileWith env L s3Key bucketName T w = (Normal segs, w') ->
  exists tin o,
    map window segs
      = map (fun j => (j, (inject_Z (Z.of_nat j) * L)%Q,
                       Num (Qmin L (T - inject_Z (Z.of_nat j) * L))))
          (seq 0 (Z.to_nat (Qceiling (T / L)))) /\
    calls w' = (calls w ++ S3GetObject bucketName s3Key :: FsWriteFile tin (Body o) ::
                map (fun seg => Ffmpeg tin (seg_startTime seg) L "mp3" (seg_path seg)) segs
                ++ [FsUnlink tin])%list /\
    objects w' = objects w /\
    Forall (fun seg => is_Some (tmp w' !! seg_path seg)) segs.
Proof.
  intros H.
  destruct (splitAudioFileWith_spec_js _ _ _ _ _ _ _ H) as (tin & o & Hwin & Hrest).
  exists tin, o. split; [|exact Hrest].
  rewrite iterations_ceil_div in Hwin. exact Hwin.
Qed.

(** On a NaN duration the splitter creates no segment. *)
Lemma splitAudioFileWith_NaN L s3Key bucketName w segs w' :
  splitAudioFileWith env L s3Key bucketName NaN w = (Normal segs, w') -> segs = [].
Proof.
  intros H.
  destruct (splitAudioFileWith_spec_js _ _ _ _ _ _ _ H) as (tin & o & Hwin & _).
  simpl in Hwin. apply map_eq_nil in Hwin. exact Hwin.
Qed.

Lemma createSegments_succeeds L tin T todo :
  (forall w d s du c, exists out, transcode env w d s du c = Normal out) ->
  forall i acc w, is_Some (tmp w !! tin) ->
    exists segs w', createSegments env L tin T todo i acc w = (Normal segs, w').
Proof.
  intros Htr. induction todo as [|todo IH]; intros i acc w Hin; simpl.
  - do 2 eexists. reflexivity.
  - unfold bind at 1. unfold Date_now at 1.
    set (w0 := mkWorld _ _ _ _). set (now := dateNow env (clockReads w)).
    unfold bind at 1. unfold ffmpeg_save at 1.
    destruct Hin as [data Hdata]. change (tmp w0) with (tmp w). rewrite Hdata.
    destruct (Htr w0 data (inject_Z (Z.of_nat i) * L)%Q L "mp3") as [out ->].
    apply IH. simpl. rewrite lookup_insert. case_decide; eauto.
Qed.

(** With the source present and no fault from the store, the disk (write
    and unlink) or ffmpeg, the splitter completes normally. *)
Lemma splitAudioFileWith_succeeds L s3Key bucketName (T : JsNumber) w o :
  (forall w, getFault env w bucketName s3Key = None) ->
  objects w !! (bucketName, s3Key) = Some o ->
  (forall w p d, writeFault env w p d = None) ->
  (forall w p, unlinkFault env w p = None) ->
  (forall w d s du c, exists out, transcode env w d s du c = Normal out) ->
  exists segs w', splitAudioFileWith env L s3Key bucketName T w = (Normal segs, w').
Proof.
  intros Hget Ho Hwr Hun Htr. unfold splitAudioFileWith.
  unfold bind at 1. unfold Date_now at 1.
  set (w0 := mkWorld _ _ _ _). set (now := dateNow env (clockReads w)).
  set (tin := "/tmp/input_" +:+ pretty now +:+ ".mp3").
  unfold bind at 1. unfold s3_getObject at 1. rewrite Hget.
  change (objects w0) with (objects w). rewrite Ho.
  unfold bind at 1. unfold writeFile at 1. rewrite Hwr.
  set (w2 := set_tmp _ _).
  assert (is_Some (tmp w2 !! tin)) as Hin.
  { subst w2. simpl. rewrite lookup_insert_eq. eauto. }
  destruct (createSegments_succeeds L tin T (iterations (js_ceil (js_div T L))) Htr 0 [] w2 Hin)
    as (segs & w3 & Ecs).
  unfold bind at 1. rewrite Ecs.
  destruct (createSegments_spec _ _ _ _ _ _ _ _ _ Ecs) as (_ & _ & _ & _ & _ & Hmono & _).
  destruct (Hmono _ Hin) as [data Hdata].
  unfold bind, unlink, ret. rewrite Hun, Hdata. do 2 eexists. reflexivity.
Qed.

End Split.

Section PlanSum.

Variables L T : Q.
Hypothesis L_pos : (0 < L)%Q.

Lemma sumQ_app (a b : list Q) : (sumQ (a ++ b) == sumQ a + sumQ b)%Q.
Proof.
  unfold sumQ. induction a as [|x a IH]; simpl.
  - ring.
  - rewrite IH. ring.
Qed.

Lemma inject_S (j : nat) : (inject_Z (Z.of_nat (S j)) == inject_Z (Z.of_nat j) + 1)%Q.
Proof. rewrite Nat2Z.inj_succ. unfold Z.succ. rewrite inject_Z_plus. reflexivity. Qed.

(** A window that ends at or before [T] has the full length. *)
Lemma full_window (j : nat) :
  (inject_Z (Z.of_nat (S j)) * L <= T)%Q ->
  (Qmin L (T - inject_Z (Z.of_nat j) * L) == L)%Q.
Proof.
  intros H. apply Q.min_l. rewrite inject_S in H.
  generalize dependent (inject_Z (Z.of_nat j)). intros a H. nra.
Qed.

Lemma sum_full_windows (m : nat) :
  (forall j, (j < m)%nat -> (inject_Z (Z.of_nat (S j)) * L <= T)%Q) ->
  (sumQ (map (fun j => Qmin L (T - inject_Z (Z.of_nat j) * L)) (seq 0 m))
   == inject_Z (Z.of_nat m) * L)%Q.
Proof.
  induction m as [|m IH]; intros H.
  - unfold sumQ. simpl. ring.
  - rewrite seq_S, map_app, sumQ_app.
    rewrite IH by (intros j Hj; apply H; lia).
    unfold sumQ at 1. simpl.
    rewrite full_window by (apply H; lia).
    rewrite inject_S. ring.
Qed.

Lemma sum_planned_windows :
  (0 < T)%Q ->
  (sumQ (map (fun j => Qmin L (T - inject_Z (Z.of_nat j) * L))
           (seq 0 (Z.to_nat (Qceiling (T / L))))) == T)%Q.
Proof.
  intros HT. destruct (covers L T L_pos HT) as [Hcov Hn].
  pose proof (below_ceiling L T L_pos) as Hbelow.
  destruct (Z.to_nat (Qceiling (T / L))) as [|m]; [lia|].
  rewrite seq_S, map_app, sumQ_app.
  rewrite sum_full_windows by (intros j Hj; apply Qlt_le_weak, Hbelow; lia).
  unfold sumQ at 1. simpl.
  assert (T - inject_Z (Z.of_nat m) * L <= L)%Q as Hlast.
  { rewrite inject_S in Hcov. clear Hbelow.
    generalize dependent (inject_Z (Z.of_nat m)). intros a Hcov. nra. }
  rewrite (Q.min_r _ _ Hlast). ring.
Qed.

End PlanSum.

Lemma lookup_planned (L T : Q) (n : nat) (segs : list Segment) i seg :
  map window segs
    = map (fun j => (j, (inject_Z (Z.of_nat j) * L)%Q,
                     Num (Qmin L (T - inject_Z (Z.of_nat j) * L)))) (seq 0 n) ->
  segs !! i = Some seg ->
  (i < n)%nat /\ seg_index seg = i /\
  seg_startTime seg = (inject_Z (Z.of_nat i) * L)%Q /\
  seg_duration seg = Num (Qmin L (T - inject_Z (Z.of_nat i) * L)).
Proof.
  intros Hmap Hi.
  assert (map window segs !! i = Some (window seg)) as Hw.
  { rewrite list_lookup_fmap, Hi. reflexivity. }
  rewrite Hmap, list_lookup_fmap in Hw.
  destruct (seq 0 n !! i) as [j|] eqn:Ej; [|discriminate].
  apply lookup_seq in Ej as [-> Hlt]. simpl in Hw.
  unfold window in Hw. injection Hw as <- <- <-. auto.
Qed.



(** C7 (amended). In a normal completion of the splitter the ffmpeg runs
    are exactly one per segment, in order, each reading the downloaded
    source with [seekInput] equal to the segment's start and [duration]
    equal to the nominal segment length [L]. For [0 < totalDuration] and
    [0 < L] that requested duration is never below the segment's recorded
    length; the two agree for every segment but the last, and for the last
    exactly when the recording does not end before [start + L]. *)
Theorem splitAudioFileWith_extractions env (L : Q) s3Key bucketName (T : Q) w segs w' :
  splitAudioFileWith env L s3Key bucketName T w = (Normal segs, w') ->
  exists tin evs,
    calls w' = (calls w ++ evs)%list /\
    List.filter is_ffmpeg evs
      = map (fun seg => Ffmpeg tin (seg_startTime seg) L "mp3" (seg_path seg)) segs /\
    ((0 < T)%Q -> (0 < L)%Q ->
     forall i seg, segs !! i = Some seg ->
       js_le (seg_duration seg) L /\
       ((S i < length segs)%nat -> js_eq (seg_duration seg) L) /\
       (js_eq (seg_duration seg) L <-> (seg_startTime seg + L <= T)%Q)).
Proof.
  intros Hrun.
  destruct (splitAudioFileWith_spec _ _ _ _ _ _ _ _ Hrun) as (tin & o & Hwin & Hcalls & _).
  exists tin. eexists. split; [exact Hcalls|]. split.
  - simpl. rewrite List.filter_app. simpl. rewrite app_nil_r.
    generalize segs. intros l. induction l as [|seg l IH]; simpl; [reflexivity|].
    rewrite IH. reflexivity.
  - intros HT HL i seg Hi.
    destruct (lookup_planned L T _ segs i seg Hwin Hi) as (Hlt & _ & Hs & Hd).
    assert (length segs = Z.to_nat (Qceiling (T / L))) as Hlen.
    { rewrite <- (length_map window), Hwin, length_map, length_seq. reflexivity. }
    rewrite Hd, Hs. simpl. split; [apply Q.le_min_l|]. split.
    + intros Hnext. apply (full_window L T i).
      apply Qlt_le_weak, (below_ceiling L T HL). lia.
    + split.
      * intros E. pose proof (Q.le_min_r L (T - inject_Z (Z.of_nat i) * L)) as Hr.
        rewrite E in Hr. lra.
      * intros Hle. apply Q.min_l. lra.
Qed.

Lemma splitAudioFileWith_extractions_witness :
  exists segs w' tin evs,
    splitAudioFile (scenario 30000 true None None) "meeting.mp3" "bkt" 30000 meetingWorld
      = (Normal segs, w') /\
    length segs = 3%nat /\
    calls w' = (calls meetingWorld ++ evs)%list /\
    List.filter is_ffmpeg evs
      = map (fun seg => Ffmpeg tin (seg_startTime seg) segmentDuration "mp3" (seg_path seg)) segs.
Proof.
  set (run := splitAudioFile (scenario 30000 true None None) "meeting.mp3" "bkt" 30000
                meetingWorld).
  assert (run = (Normal (match fst run with Normal s => s | Thrown _ => [] end), snd run)) as E.
  { vm_compute. reflexivity. }
  assert (length (match fst run with Normal s => s | Thrown _ => [] end) = 3%nat) as Hlen.
  { vm_compute. reflexivity. }
  pose proof (splitAudioFileWith_extractions (scenario 30000 true None None) segmentDuration
                "meeting.mp3" "bkt" 30000 meetingWorld
                (match fst run with Normal s => s | Thrown _ => [] end) (snd run) E) as H.
  clearbody run.
  destruct H as (tin & evs & Hc & Hf & _).
  exists (match fst run with Normal s => s | Thrown _ => [] end), (snd run), tin, evs.
  split; [exact E|]. split; [exact Hlen|]. split; [exact Hc|exact Hf].
Defined.

(** C7, as stated, fails on a last window that is shorter than the nominal
    length: for a recording of 30000 seconds the third segment records a
    length of 4800 seconds, while the ffmpeg run that produced it was asked
    for 12600 seconds from its start. *)
Lemma last_extraction_requests_nominal_length :
  exists segs w' seg,
    splitAudioFile (scenario 30000 true None None) "meeting.mp3" "bkt" 30000 meetingWorld
      = (Normal segs, w') /\
    segs !! 2%nat = Some seg /\
    (seg_startTime seg == 25200)%Q /\
    js_eq (seg_duration seg) 4800 /\
    List.filter is_ffmpeg (calls w') !! 2%nat
      = Some (Ffmpeg "/tmp/input_1700000000000.mp3" (seg_startTime seg) segmentDuration "mp3"
                (seg_path seg)) /\
    (segmentDuration == 12600)%Q /\
    ~ js_eq segmentDuration (seg_duration seg).
Proof.
  do 3 eexists. split.
  { vm_compute. reflexivity. }
  split; [reflexivity|]. repeat split; try reflexivity.
  intros H. vm_compute in H. discriminate H.
Qed.





(** * uploadSegments *)



Section Upload.

Variable env : Env.
Variables bucketName originalS3Key : string.

Let baseKey := removeExtension originalS3Key.


(** The segments before the failing one are read and stored. *)
Lemma uploadLoop_prefix pre :
  forall rest acc w,
    Forall (fun s => is_Some (tmp w !! seg_path s) /\
                     forall w0 req, put_Key req = segmentKeyOf baseKey (seg_index s) ->
                                    putFault env w0 req = None) pre ->
    exists w1 acc1,
      uploadLoop env bucketName originalS3Key baseKey (pre ++ rest) acc w
        = uploadLoop env bucketName originalS3Key baseKey rest acc1 w1 /\
      tmp w1 = tmp w /\
      (forall x, is_Some (objects w !! x) -> is_Some (objects w1 !! x)) /\
      Forall (fun s => is_Some (objects w1 !! (bucketName, segmentKeyOf baseKey (seg_index s)))) pre /\
      List.filter is_put (calls w1)
        = (List.filter is_put (calls w) ++
           map (fun s => S3PutObject
                  (mkPut bucketName (segmentKeyOf baseKey (seg_index s))
                     (default [] (tmp w !! seg_path s)) "audio/mpeg"
                     (segmentMetadata env originalS3Key s))) pre)%list.
Proof.
  induction pre as [|s pre IH]; intros rest acc w Hpre.
  - exists w, acc. simpl. rewrite app_nil_r. repeat split; auto.
  - apply Forall_cons in Hpre as [[[data Hdata] Hput] Hpre].
    simpl app. cbn [uploadLoop]. unfold bind at 1.
    unfold try_catch at 1. unfold bind at 1. unfold readFile at 1. rewrite Hdata.
    unfold bind at 1. unfold s3_putObject at 1. rewrite Hput by reflexivity.
    unfold ret at 1. cbv beta iota.
    set (w1 := set_objects _ _).
    destruct (IH rest (acc ++ [mkSegmentUrl ("s3://" +:+ bucketName +:+ "/" +:+ segmentKeyOf baseKey (seg_index s))
                                 (segmentKeyOf baseKey (seg_index s)) (seg_index s)
                                 (seg_startTime s) (seg_duration s)])%list w1)
      as (w2 & acc2 & Hrun & Htmp & Hmono & Hobj & Hcalls).
    { eapply Forall_impl; [exact Hpre|]. intros s' [Hs' Hp']. split; [exact Hs'|exact Hp']. }
    exists w2, acc2. split; [exact Hrun|]. split; [rewrite Htmp; reflexivity|].
    assert (forall x, is_Some (objects w !! x) -> is_Some (objects w1 !! x)) as Hstep.
    { intros x Hx. subst w1. simpl. rewrite lookup_insert. case_decide; eauto. }
    split; [intros x Hx; apply Hmono, Hstep, Hx|]. split.
    + constructor; [|exact Hobj].
      apply Hmono. subst w1. simpl. rewrite lookup_insert_eq. eauto.
    + rewrite Hcalls. subst w1. simpl. rewrite !List.filter_app. simpl.
      rewrite app_nil_r, <- app_assoc. simpl.
      refine (f_equal (fun d => (_ ++ S3PutObject (mkPut _ _ d _ _) :: _)%list)
                (_ : data = default [] (tmp w !! seg_path s))).
      exact (eq_sym (f_equal (from_option id []) Hdata)).
Qed.

End Upload.



Lemma emits_no_put {A} (P : Event -> bool) (m : M A) w r w' :
  emits P m -> (forall ev, P ev = true -> is_put ev = false) ->
  m w = (r, w') -> List.filter is_put (calls w') = List.filter is_put (calls w).
Proof.
  intros Hm HP H. destruct (Hm _ _ _ H) as (evs & -> & F).
  rewrite List.filter_app.
  assert (List.filter is_put evs = []) as ->; [|apply app_nil_r].
  induction F as [|ev evs Hev F IH]; simpl; [reflexivity|].
  rewrite (HP _ Hev). exact IH.
Qed.

(** C4. When the probe reported more than four hours, the splitter returned
    its segments, the puts of the segments before index [n] are accepted and
    the put of segment [n] is refused with error [e], the handler resolves
    to the statusCode 500 error result carrying [e]: there is no partial
    success. The objects of the segments before [n] are in the store at the
    end, and the refused put is the last one attempted. *)
Theorem handler_publish_failure env event s3Key bucketName w info w1 segs w2 (n : nat) e :
  ev_s3Key event = Some s3Key -> ev_bucketName event = Some bucketName ->
  s3Key <> "" -> bucketName <> "" ->
  analyzeAudioFile env s3Key bucketName w = (Normal info, w1) ->
  js_lt 14400 (audio_duration info) ->
  splitAudioFile env s3Key bucketName (audio_duration info) w1 = (Normal segs, w2) ->
  (n < length segs)%nat ->
  (forall i w0 req, (i < n)%nat ->
     put_Key req = segmentKeyOf (removeExtension s3Key) i -> putFault env w0 req = None) ->
  (forall w0 req,
     put_Key req = segmentKeyOf (removeExtension s3Key) n -> putFault env w0 req = Some e) ->
  exists w',
    handler env event w
      = (Normal (mkResponse 500 (ErrorBody (message e) (stack e))), w') /\
    (forall i, (i < n)%nat ->
       is_Some (objects w' !! (bucketName, segmentKeyOf (removeExtension s3Key) i))) /\
    length (List.filter is_put (calls w')) = (length (List.filter is_put (calls w)) + S n)%nat.
Proof.
  intros Hk Hb Hk0 Hb0 Han Hd Hsplit Hn Hok Hfail.
  pose proof (js_leb_lt _ _ Hd : js_leb (audio_duration info) fourHoursInSeconds = false)
    as Hgate.
  destruct (audio_duration info) as [d|] eqn:Edur; [|contradiction].
  destruct (splitAudioFileWith_spec _ _ _ _ _ _ _ _ Hsplit) as (tin & o & Hwin & _ & _ & Hfiles).
  pose proof (lookup_planned segmentDuration d
                (Z.to_nat (Qceiling (d / segmentDuration))) segs) as Hlook.
  destruct (lookup_lt_is_Some_2 segs n Hn) as [seg Hseg].
  destruct (Hlook n seg Hwin Hseg) as (_ & Hidx & _).
  assert (Forall (fun s => is_Some (tmp w2 !! seg_path s) /\
            forall w0 req, put_Key req = segmentKeyOf (removeExtension s3Key) (seg_index s) ->
                           putFault env w0 req = None) (take n segs)) as Hpre.
  { apply Forall_lookup. intros i s Hi.
    apply lookup_take_Some in Hi as [Hi Hlt].
    destruct (Hlook i s Hwin Hi) as (_ & Hidx' & _). rewrite Hidx'.
    split; [|intros w0 req; apply Hok; exact Hlt].
    rewrite Forall_lookup in Hfiles. eapply Hfiles; eauto. }
  destruct (uploadLoop_prefix env bucketName s3Key (take n segs) (seg :: drop (S n) segs) [] w2 Hpre)
    as (w3 & acc & Hrun & Htmp & _ & Hobj & Hputs).
  rewrite (take_drop_middle segs n seg Hseg) in Hrun.
  assert (is_Some (tmp w3 !! seg_path seg)) as [data Hdata].
  { rewrite Htmp. rewrite Forall_lookup in Hfiles. eapply Hfiles; eauto. }
  eexists. split; [|split].
  - rewrite (handler_present _ _ _ _ _ Hk Hb Hk0 Hb0).
    unfold try_catch at 1. unfold bind at 1. rewrite Han, Edur, Hgate.
    unfold bind at 1. rewrite Hsplit.
    unfold bind at 1. unfold uploadSegments. rewrite Hrun.
    cbn [uploadLoop]. unfold bind at 1. unfold try_catch at 1.
    unfold bind at 1. unfold readFile at 1. rewrite Hdata.
    unfold bind at 1. unfold s3_putObject at 1.
    rewrite (Hfail _ _ (f_equal _ Hidx)).
    unfold throw, ret. reflexivity.
  - intros i Hi. simpl.
    destruct (lookup_lt_is_Some_2 segs i ltac:(lia)) as [s Hs].
    destruct (Hlook i s Hwin Hs) as (_ & Hidx' & _).
    rewrite Forall_lookup in Hobj.
    specialize (Hobj i s). rewrite Hidx' in Hobj. apply Hobj.
    apply lookup_take_Some. split; assumption.
  - simpl. rewrite !List.filter_app. simpl. rewrite app_nil_r, Hputs.
    rewrite !length_app, length_map, length_take_le by lia. simpl.
    rewrite (emits_no_put _ _ _ _ _ (emits_splitAudioFileWith env _ _ _ _) ltac:(by intros []) Hsplit).
    rewrite (emits_no_put _ _ _ _ _ (emits_analyzeAudioFile env _ _) ltac:(by intros []) Han).
    lia.
Qed.

Lemma handler_publish_failure_witness :
  exists w',
    handler (scenario 30000 true (Some "meeting_segment_1.mp3") None) meetingEvent meetingWorld
      = (Normal (mkResponse 500 (ErrorBody "SlowDown" "SlowDown: at putObject")), w') /\
    (forall i, (i < 1)%nat ->
       is_Some (objects w' !! ("bkt", segmentKeyOf (removeExtension "meeting.mp3") i))) /\
    length (List.filter is_put (calls w'))
      = (length (List.filter is_put (calls meetingWorld)) + 2)%nat.
Proof.
  pose (env := scenario 30000 true (Some "meeting_segment_1.mp3") None).
  pose (an := analyzeAudioFile env "meeting.mp3" "bkt" meetingWorld).
  pose (sp := splitAudioFile env "meeting.mp3" "bkt" 30000 (snd an)).
  refine (handler_publish_failure env meetingEvent "meeting.mp3" "bkt" meetingWorld
            (mkAudioInfo 30000 1024 "mp3") (snd an)
            (match fst sp with Normal s => s | Thrown _ => [] end) (snd sp) 1
            (mkError "SlowDown" "SlowDown: at putObject")
            eq_refl eq_refl _ _ _ _ _ _ _ _).
  - discriminate.
  - discriminate.
  - vm_compute. reflexivity.
  - reflexivity.
  - vm_compute. reflexivity.
  - vm_compute. lia.
  - intros i w0 req Hi Hkey. assert (i = 0%nat) as -> by lia.
    simpl. rewrite Hkey. reflexivity.
  - intros w0 req Hkey. simpl. rewrite Hkey. reflexivity.
Defined.

(** * triggerTranscriptionJobs *)

Section Dispatch.

Variable env : Env.

Lemma triggerLoop_spec segmentUrls :
  forall acc w,
    exists jobs w' params,
      triggerLoop env segmentUrls acc w = (Normal (acc ++ jobs)%list, w') /\
      calls w' = (calls w ++ map StartTranscriptionJob params)%list /\
      map MediaFileUri params = map su_url segmentUrls /\
      Forall (fun j => job_status j = "STARTED") jobs /\
      (length jobs <= length segmentUrls)%nat /\
      forall ok : string -> bool,
        (forall w0 p, accepted (startJob env w0 p) = ok (MediaFileUri p)) ->
        map job_segmentIndex jobs
          = map su_index (List.filter (fun s => ok (su_url s)) segmentUrls).
Proof.
  induction segmentUrls as [|segment rest IH]; intros acc w.
  - exists [], w, []. simpl. rewrite !app_nil_r. unfold ret. repeat split; auto.
  - cbn [triggerLoop]. unfold bind at 1. unfold Date_now at 1.
    set (w0 := mkWorld _ _ _ _). set (now := dateNow env (clockReads w)).
    set (jobName := "boardbreeze-segment-" +:+ pretty (su_index segment) +:+ "-" +:+ pretty now).
    set (params := mkParams jobName (su_url segment) "mp3" "en-US" _ _).
    unfold bind at 1. unfold try_catch at 1. unfold bind at 1.
    unfold transcribe_startTranscriptionJob at 1.
    destruct (startJob env w0 params) as [result|e] eqn:Estart; unfold ret at 1; cbv beta iota.
    + destruct (IH (acc ++ [mkJob jobName (su_index segment) "STARTED" result])%list
                   (log (StartTranscriptionJob params) w0))
        as (jobs & w' & ps & Hrun & Hcalls & Huri & Hst & Hlen & Hok).
      exists (mkJob jobName (su_index segment) "STARTED" result :: jobs), w', (params :: ps).
      split; [rewrite Hrun, <- app_assoc; reflexivity|].
      split; [rewrite Hcalls; simpl; rewrite <- app_assoc; reflexivity|].
      split; [simpl; rewrite Huri; reflexivity|].
      split; [constructor; [reflexivity|exact Hst]|].
      split; [simpl; lia|].
      intros ok Hacc.
      assert (ok (su_url segment) = true) as Hs.
      { rewrite <- (Hacc w0 params : _ = ok (su_url segment)), Estart. reflexivity. }
      simpl. rewrite Hs. simpl. rewrite (Hok ok Hacc). reflexivity.
    + destruct (IH acc (log (StartTranscriptionJob params) w0))
        as (jobs & w' & ps & Hrun & Hcalls & Huri & Hst & Hlen & Hok).
      exists jobs, w', (params :: ps).
      split; [exact Hrun|].
      split; [rewrite Hcalls; simpl; rewrite <- app_assoc; reflexivity|].
      split; [simpl; rewrite Huri; reflexivity|].
      split; [exact Hst|].
      split; [simpl; lia|].
      intros ok Hacc.
      assert (ok (su_url segment) = false) as Hs.
      { rewrite <- (Hacc w0 params : _ = ok (su_url segment)), Estart. reflexivity. }
      simpl. rewrite Hs. apply (Hok ok Hacc).
Qed.

End Dispatch.

(** C3 (amended). The dispatcher never throws and submits every segment it
    is given, in order, whatever happened to the earlier submissions. It
    returns one entry, with status STARTED, for each submission that was
    accepted and none for a submission that failed: when acceptance depends
    on the segment's URL alone, the indices returned are those of the
    accepted segments, in order. *)
Theorem triggerTranscriptionJobs_partial_failure env segmentUrls w :
  exists jobs w' params,
    triggerTranscriptionJobs env segmentUrls w = (Normal jobs, w') /\
    calls w' = (calls w ++ map StartTranscriptionJob params)%list /\
    map MediaFileUri params = map su_url segmentUrls /\
    Forall (fun j => job_status j = "STARTED") jobs /\
    (length jobs <= length segmentUrls)%nat /\
    forall ok : string -> bool,
      (forall w0 p, accepted (startJob env w0 p) = ok (MediaFileUri p)) ->
      map job_segmentIndex jobs
        = map su_index (List.filter (fun s => ok (su_url s)) segmentUrls).
Proof.
  apply (triggerLoop_spec env segmentUrls [] w).
Qed.

Lemma triggerTranscriptionJobs_partial_failure_witness :
  exists jobs w',
    triggerTranscriptionJobs
      (scenario 30000 true None (Some "s3://bkt/meeting_segment_1.mp3"))
      publishedMeeting meetingWorld = (Normal jobs, w') /\
    map job_segmentIndex jobs = [0; 2]%nat.
Proof.
  destruct (triggerTranscriptionJobs_partial_failure
              (scenario 30000 true None (Some "s3://bkt/meeting_segment_1.mp3"))
              publishedMeeting meetingWorld)
    as (jobs & w' & params & Hrun & _ & _ & _ & _ & Hok).
  exists jobs, w'. split; [exact Hrun|].
  rewrite (Hok (fun uri => if decide (Some uri = Some "s3://bkt/meeting_segment_1.mp3")
                           then false else true)).
  - reflexivity.
  - intros w0 p. simpl. case_decide; reflexivity.
Defined.

(** C3, as stated, fails: of three segments, the submission of the second
    is refused; the dispatcher returns two entries, for indices 0 and 2,
    both STARTED, and no entry for index 1. *)
Lemma dispatch_omits_failed_submission :
  exists jobs w',
    triggerTranscriptionJobs
      (scenario 30000 true None (Some "s3://bkt/meeting_segment_1.mp3"))
      publishedMeeting meetingWorld = (Normal jobs, w') /\
    length publishedMeeting = 3%nat /\
    length (List.filter is_startJob (calls w')) = 3%nat /\
    length jobs = 2%nat /\
    map job_segmentIndex jobs = [0; 2]%nat /\
    map job_status jobs = ["STARTED"; "STARTED"].
Proof.
  do 2 eexists. split.
  { vm_compute. reflexivity. }
  repeat split; reflexivity.
Qed.

(** * Scratch files *)

(** C8 fails on the code. When ffprobe cannot read the file, the scratch
    copy of the source is still under /tmp after the handler has returned;
    when a put is refused, all three segment files are still there. Only the
    run in which everything succeeds leaves /tmp empty. *)
Lemma failure_paths_leave_scratch_files :
  (exists resp w',
     handler (scenario 30000 false None None) meetingEvent meetingWorld = (Normal resp, w') /\
     statusCode resp = 500%Z /\
     dom (tmp w') = {[ "/tmp/input_1700000000000.mp3" ]}) /\
  (exists resp w',
     handler (scenario 30000 true (Some "meeting_segment_1.mp3") None) meetingEvent meetingWorld
       = (Normal resp, w') /\
     statusCode resp = 500%Z /\
     dom (tmp w') = {[ "/tmp/segment_0_1700000000002.mp3";
                       "/tmp/segment_1_1700000000003.mp3";
                       "/tmp/segment_2_1700000000004.mp3" ]}) /\
  (exists resp w',
     handler (scenario 30000 true None None) meetingEvent meetingWorld = (Normal resp, w') /\
     statusCode resp = 200%Z /\
     tmp w' = ∅).
Proof.
  split; [|split].
  - do 2 eexists. split; [vm_compute; reflexivity|]. split; [reflexivity|].
    vm_compute. reflexivity.
  - do 2 eexists. split; [vm_compute; reflexivity|]. split; [reflexivity|].
    vm_compute. reflexivity.
  - do 2 eexists. split; [vm_compute; reflexivity|]. split; reflexivity.
Qed.

(** * Further properties *)

(** ** Keys *)

Lemma append_cons (x : ascii) (a b : string) : String x a +:+ b = String x (a +:+ b).
Proof. reflexivity. Qed.

Lemma string_app_length (a b : string) :
  String.length (a +:+ b) = (String.length a + String.length b)%nat.
Proof.
  induction a as [|c a IH]; [reflexivity|].
  rewrite append_cons. simpl. rewrite IH. reflexivity.
Qed.

Lemma string_app_inv_tail (a b t : string) : a +:+ t = b +:+ t -> a = b.
Proof.
  revert b. induction a as [|c a IH]; intros [|d b] H.
  - reflexivity.
  - apply (f_equal String.length) in H. rewrite !string_app_length in H. simpl in H. lia.
  - apply (f_equal String.length) in H. rewrite !string_app_length in H. simpl in H. lia.
  - rewrite !append_cons in H. injection H as -> H. rewrite (IH b H). reflexivity.
Qed.

Lemma string_app_assoc (a b c : string) : (a +:+ b) +:+ c = a +:+ b +:+ c.
Proof.
  induction a as [|x a IH]; [reflexivity|].
  rewrite !append_cons, IH. reflexivity.
Qed.

Lemma string_app_nil_r (a : string) : a +:+ "" = a.
Proof.
  induction a as [|x a IH]; [reflexivity|].
  rewrite append_cons, IH. reflexivity.
Qed.

Lemma removeExtension_unfold c r :
  removeExtension (String c r)
  = if is_extension (String c r) then EmptyString else String c (removeExtension r).
Proof. reflexivity. Qed.

Lemma is_extension_inv s :
  is_extension s = true ->
  exists ext, s = "." +:+ ext /\ ext <> "" /\ all_ext_chars ext = true.
Proof.
  destruct s as [|c [|d r]]; try discriminate. unfold is_extension.
  intros H. apply andb_true_iff in H as [Hc Hall].
  apply Ascii.eqb_eq in Hc as ->. exists (String d r). repeat split; [discriminate|exact Hall].
Qed.

Lemma removeExtension_suffix s :
  removeExtension s = s \/
  exists ext, ext <> "" /\ all_ext_chars ext = true /\
              s = removeExtension s +:+ "." +:+ ext.
Proof.
  induction s as [|c r IH].
  - left. reflexivity.
  - rewrite removeExtension_unfold.
    destruct (is_extension (String c r)) eqn:E.
    + right. apply is_extension_inv in E as (ext & -> & Hne & Hall).
      exists ext. repeat split; assumption.
    + destruct IH as [IH|(ext & Hne & Hall & IH)].
      * left. rewrite IH. reflexivity.
      * right. exists ext. split; [exact Hne|]. split; [exact Hall|].
        rewrite append_cons, <- IH. reflexivity.
Qed.

Lemma all_ext_chars_slash a b : all_ext_chars (a +:+ String "/" b) = false.
Proof.
  induction a as [|c a IH].
  - reflexivity.
  - rewrite append_cons. simpl. rewrite IH. apply andb_false_r.
Qed.

Lemma removeExtension_no_dot name :
  occurs "." name = false -> removeExtension name = name.
Proof.
  induction name as [|c r IH]; [reflexivity|].
  simpl occurs. intros H. apply orb_false_iff in H as [Hc Hr].
  rewrite removeExtension_unfold.
  assert (is_extension (String c r) = false) as ->.
  { unfold is_extension. destruct r; [reflexivity|]. rewrite Hc. reflexivity. }
  rewrite (IH Hr). reflexivity.
Qed.

Lemma all_ext_chars_occurs s : all_ext_chars s = true -> occurs "/" s = false.
Proof.
  induction s as [|c r IH]; simpl; [reflexivity|].
  intros H. apply andb_true_iff in H as [Hc Hr]. rewrite (IH Hr).
  unfold ext_char in Hc. apply andb_true_iff in Hc as [Hc _].
  destruct (Ascii.eqb c "/"); [discriminate|reflexivity].
Qed.

(** X1. What [replace(/\.[^/.]+$/, '')] removes is a suffix of the key:
    either nothing, or one dot followed by one or more characters other than
    dot and slash. The suffix has no slash, so the directory part of the key
    is always kept. *)
Theorem removeExtension_cuts_an_extension s :
  exists suffix,
    s = removeExtension s +:+ suffix /\
    occurs "/" suffix = false /\
    (suffix = "" \/
     exists ext, suffix = "." +:+ ext /\ ext <> "" /\ all_ext_chars ext = true).
Proof.
  destruct (removeExtension_suffix s) as [E|(ext & Hne & Hall & E)].
  - exists "". rewrite string_app_nil_r. split; [symmetry; exact E|].
    split; [reflexivity|left; reflexivity].
  - exists ("." +:+ ext). split; [exact E|]. split.
    + change ("." +:+ ext) with (String "." ext). simpl.
      apply all_ext_chars_occurs, Hall.
    + right. exists ext. repeat split; assumption.
Qed.

(** X2. A key whose last path component has no dot is left as it is, even
    when a directory name in it has dots. *)
Theorem removeExtension_keeps_dotless_name dir name :
  occurs "." name = false ->
  removeExtension name = name /\
  removeExtension (dir +:+ "/" +:+ name) = dir +:+ "/" +:+ name.
Proof.
  intros Hname. split; [apply removeExtension_no_dot, Hname|].
  induction dir as [|c d IH].
  - change ("" +:+ "/" +:+ name) with (String "/" name).
    rewrite removeExtension_unfold.
    assert (is_extension (String "/" name) = false) as ->.
    { unfold is_extension. destruct name; reflexivity. }
    rewrite (removeExtension_no_dot _ Hname). reflexivity.
  - rewrite append_cons, removeExtension_unfold.
    assert (is_extension (String c (d +:+ "/" +:+ name)) = false) as ->.
    { unfold is_extension.
      destruct (d +:+ "/" +:+ name) as [|x r] eqn:E; [reflexivity|].
      rewrite <- E. change ("/" +:+ name) with (String "/" name).
      rewrite all_ext_chars_slash. apply andb_false_r. }
    rewrite IH. reflexivity.
Qed.

Lemma removeExtension_keeps_dotless_name_witness :
  removeExtension "minutes" = "minutes" /\
  removeExtension ("board.v2" +:+ "/" +:+ "minutes") = "board.v2" +:+ "/" +:+ "minutes".
Proof.
  apply (removeExtension_keeps_dotless_name "board.v2" "minutes"). reflexivity.
Defined.

Lemma segmentKeyOf_not_source originalS3Key i :
  segmentKeyOf (removeExtension originalS3Key) i <> originalS3Key.
Proof.
  intros H. unfold segmentKeyOf in H.
  destruct (removeExtension_suffix originalS3Key) as [E|(ext & _ & _ & E)].
  - rewrite E in H. rewrite <- (string_app_nil_r originalS3Key) in H at 2.
    apply (inj (String.append _)) in H. discriminate H.
  - rewrite E in H at 2. apply (inj (String.append _)) in H. discriminate H.
Qed.

(** X3. Segments of one recording get pairwise distinct keys, and none of
    them is the key of the recording itself: a segment is never stored over
    another segment or over its source. *)
Theorem segment_keys_distinct originalS3Key :
  (forall i j, segmentKeyOf (removeExtension originalS3Key) i
               = segmentKeyOf (removeExtension originalS3Key) j -> i = j) /\
  (forall i, segmentKeyOf (removeExtension originalS3Key) i <> originalS3Key).
Proof.
  split.
  - intros i j H. unfold segmentKeyOf in H.
    apply (inj (String.append _)) in H. apply (inj (String.append _)) in H.
    apply string_app_inv_tail in H. apply (inj pretty) in H. exact H.
  - intros i. apply segmentKeyOf_not_source.
Qed.

Lemma segment_keys_distinct_witness :
  segmentKeyOf (removeExtension "meeting.mp3") 0 <> "meeting.mp3" /\
  (segmentKeyOf (removeExtension "meeting.mp3") 1 = segmentKeyOf (removeExtension "meeting.mp3") 1 ->
   1 = 1)%nat.
Proof.
  split.
  - apply (proj2 (segment_keys_distinct "meeting.mp3") 0%nat).
  - apply (proj1 (segment_keys_distinct "meeting.mp3") 1%nat 1%nat).
Defined.

(** ** What the pipeline leaves alone *)

Section Steps.

Variable R : World -> World -> Prop.
Hypothesis R_refl : forall w, R w w.
Hypothesis R_trans : forall a b c, R a b -> R b c -> R a c.

Lemma steps_ret {A} (a : A) : steps R (ret a).
Proof. intros w r w' [= <- <-]. apply R_refl. Qed.

Lemma steps_throw {A} (e : JsError) : steps R (@throw A e).
Proof. intros w r w' [= <- <-]. apply R_refl. Qed.

Lemma steps_bind {A B} (m : M A) (k : A -> M B) :
  steps R m -> (forall a, steps R (k a)) -> steps R (bind m k).
Proof.
  intros Hm Hk w r w' H. unfold bind in H.
  destruct (m w) as [[a|e] w1] eqn:E.
  - eapply R_trans; [eapply Hm, E|eapply Hk, H].
  - injection H as <- <-. eapply Hm, E.
Qed.

Lemma steps_try_catch {A} (m : M A) (h : JsError -> M A) :
  steps R m -> (forall e, steps R (h e)) -> steps R (try_catch m h).
Proof.
  intros Hm Hh w r w' H. unfold try_catch in H.
  destruct (m w) as [[a|e] w1] eqn:E.
  - injection H as <- <-. eapply Hm, E.
  - eapply R_trans; [eapply Hm, E|eapply Hh, H].
Qed.

End Steps.

Lemma untouched_refl x p w : untouched x p w w.
Proof. split; reflexivity. Qed.

Lemma untouched_trans x p a b c : untouched x p a b -> untouched x p b c -> untouched x p a c.
Proof. intros [H1 H2] [H3 H4]. split; congruence. Qed.

Section Frame.

Variable env : Env.
Variable x : string * string.
Variable p : string.

Let U := untouched x p.

Lemma frame_Date_now : steps U (Date_now env).
Proof. intros w r w' [= <- <-]. split; reflexivity. Qed.

Lemma frame_getObject b k : steps U (s3_getObject env b k).
Proof.
  intros w r w' H. unfold s3_getObject in H. repeat case_match; simplify_eq; split; reflexivity.
Qed.

Lemma frame_putObject req :
  (put_Bucket req, put_Key req) <> x -> steps U (s3_putObject env req).
Proof.
  intros Hne w r w' H. unfold s3_putObject in H.
  repeat case_match; simplify_eq; split; try reflexivity.
  simpl. apply lookup_insert_ne. exact Hne.
Qed.

Lemma frame_writeFile path d : path <> p -> steps U (writeFile env path d).
Proof.
  intros Hne w r w' H. unfold writeFile in H.
  repeat case_match; simplify_eq; split; try reflexivity.
  simpl. apply lookup_insert_ne. exact Hne.
Qed.

Lemma frame_readFile path : steps U (readFile env path).
Proof.
  intros w r w' H. unfold readFile in H. repeat case_match; simplify_eq; split; reflexivity.
Qed.

Lemma frame_unlink path : path <> p -> steps U (unlink env path).
Proof.
  intros Hne w r w' H. unfold unlink in H.
  repeat case_match; simplify_eq; split; try reflexivity.
  simpl. apply lookup_delete_ne. exact Hne.
Qed.

Lemma frame_unlink_detached path : path <> p -> steps U (unlink_detached env path).
Proof.
  intros Hne w r w' H. unfold unlink_detached in H.
  repeat case_match; simplify_eq; split; try reflexivity.
  simpl. apply lookup_delete_ne. exact Hne.
Qed.

Lemma frame_ffprobe path : steps U (ffprobe env path).
Proof.
  intros w r w' H. unfold ffprobe in H. repeat case_match; simplify_eq; split; reflexivity.
Qed.

Lemma frame_ffmpeg_save i s d c o : o <> p -> steps U (ffmpeg_save env i s d c o).
Proof.
  intros Hne w r w' H. unfold ffmpeg_save in H.
  repeat case_match; simplify_eq; split; try reflexivity.
  simpl. apply lookup_insert_ne. exact Hne.
Qed.

Lemma frame_startTranscriptionJob params :
  steps U (transcribe_startTranscriptionJob env params).
Proof. intros w r w' [= <- <-]. split; reflexivity. Qed.

End Frame.

Lemma steps_bind_post {A B} (R : World -> World -> Prop) (Q : A -> Prop)
    (m : M A) (k : A -> M B) :
  (forall a b c, R a b -> R b c -> R a c) ->
  (forall w a w', m w = (Normal a, w') -> Q a) ->
  steps R m -> (forall a, Q a -> steps R (k a)) -> steps R (bind m k).
Proof.
  intros R_trans HQ Hm Hk w r w' H. unfold bind in H.
  destruct (m w) as [[a|e] w1] eqn:E.
  - eapply R_trans; [eapply Hm, E|eapply Hk, H]. eapply HQ, E.
  - injection H as <- <-. eapply Hm, E.
Qed.

(** Every segment file the splitter reports is named /tmp/segment_... *)
Lemma splitAudioFileWith_paths env L s3Key bucketName T w segs w' :
  splitAudioFileWith env L s3Key bucketName T w = (Normal segs, w') ->
  Forall (fun seg => exists rest, seg_path seg = "/tmp/segment_" +:+ rest) segs.
Proof.
  unfold splitAudioFileWith. intros H.
  unfold bind at 1 in H. unfold Date_now at 1 in H.
  set (w0 := mkWorld _ _ _ _) in H. set (now := dateNow env (clockReads w)) in H.
  unfold bind at 1 in H.
  destruct (s3_getObject env bucketName s3Key w0) as [[o|e] w1]; [|discriminate].
  unfold bind at 1 in H.
  destruct (writeFile env _ (Body o) w1) as [[[]|e] w2]; [|discriminate].
  unfold bind at 1 in H.
  destruct (createSegments env L _ T _ 0 [] w2) as [[segments|e] w3] eqn:Ecs; [|discriminate].
  apply createSegments_spec in Ecs as (new & -> & _ & _ & _ & _ & Hfiles).
  unfold bind at 1 in H.
  destruct (unlink env _ w3) as [[[]|e] w4]; [|discriminate].
  injection H as <- <-. simpl app.
  eapply Forall_impl; [exact Hfiles|]. intros seg [_ Hp]. exact Hp.
Qed.

Section StageFrames.

Variable env : Env.
Variable x : string * string.
Variable p : string.
Hypothesis p_not_input : forall t, p <> "/tmp/input_" +:+ t.
Hypothesis p_not_segment : forall t, p <> "/tmp/segment_" +:+ t.

Let U := untouched x p.

Ltac frame_step :=
  first
    [ apply steps_ret; apply untouched_refl
    | apply steps_throw; apply untouched_refl
    | apply frame_Date_now | apply frame_getObject | apply frame_readFile
    | apply frame_ffprobe | apply frame_startTranscriptionJob
    | apply frame_writeFile; apply not_eq_sym, p_not_input
    | apply frame_unlink; apply not_eq_sym, p_not_input
    | apply frame_unlink_detached; apply not_eq_sym, p_not_input
    | apply frame_ffmpeg_save; apply not_eq_sym, p_not_segment
    | apply steps_bind; [apply untouched_trans| |intros ?]
    | apply steps_try_catch; [apply untouched_trans| |intros ?] ].

Lemma frame_analyzeAudioFile s3Key bucketName :
  steps U (analyzeAudioFile env s3Key bucketName).
Proof. unfold analyzeAudioFile. repeat frame_step. Qed.

Lemma frame_createSegments L tin T todo :
  forall i segments, steps U (createSegments env L tin T todo i segments).
Proof.
  induction todo as [|todo IH]; intros i segments; simpl.
  - apply steps_ret, untouched_refl.
  - repeat frame_step. apply IH.
Qed.

Lemma frame_splitAudioFileWith L s3Key bucketName T :
  steps U (splitAudioFileWith env L s3Key bucketName T).
Proof. unfold splitAudioFileWith. repeat frame_step. apply frame_createSegments. Qed.

Lemma frame_cleanupTempFiles segments :
  Forall (fun seg => exists rest, seg_path seg = "/tmp/segment_" +:+ rest) segments ->
  steps U (cleanupTempFiles env segments).
Proof.
  induction 1 as [|segment rest [t Ht] _ IH]; simpl.
  - apply steps_ret, untouched_refl.
  - apply steps_bind; [apply untouched_trans| |intros ?; exact IH].
    apply steps_try_catch; [apply untouched_trans| |intros ?; apply steps_ret, untouched_refl].
    apply frame_unlink. rewrite Ht. apply not_eq_sym, p_not_segment.
Qed.

Lemma frame_triggerLoop segmentUrls :
  forall jobs, steps U (triggerLoop env segmentUrls jobs).
Proof.
  induction segmentUrls as [|segment rest IH]; intros jobs; simpl.
  - apply steps_ret, untouched_refl.
  - repeat frame_step. apply IH.
Qed.

Variables bucketName originalS3Key : string.
Hypothesis x_not_segment :
  forall i, x <> (bucketName, segmentKeyOf (removeExtension originalS3Key) i).

Lemma frame_uploadLoop segments :
  forall acc,
    steps U (uploadLoop env bucketName originalS3Key (removeExtension originalS3Key)
               segments acc).
Proof.
  induction segments as [|segment rest IH]; intros acc; simpl.
  - apply steps_ret, untouched_refl.
  - apply steps_bind; [apply untouched_trans| |intros ?; apply IH].
    apply steps_try_catch; [apply untouched_trans| |intros ?; apply steps_throw, untouched_refl].
    apply steps_bind; [apply untouched_trans|apply frame_readFile|intros data].
    apply steps_bind; [apply untouched_trans| |intros ?; apply steps_ret, untouched_refl].
    apply frame_putObject. simpl. apply not_eq_sym, x_not_segment.
Qed.

End StageFrames.

(** X4. Whatever the outcome, the handler changes the store only under the
    derived segment keys of the bucket it was given, and local files only
    under the names /tmp/input_... and /tmp/segment_...; in particular the
    source recording is never overwritten or deleted. *)
Theorem handler_frame env event s3Key bucketName w r w' :
  ev_s3Key event = Some s3Key -> ev_bucketName event = Some bucketName ->
  handler env event w = (r, w') ->
  (forall x, (forall i, x <> (bucketName, segmentKeyOf (removeExtension s3Key) i)) ->
             objects w' !! x = objects w !! x) /\
  (forall p, (forall t, p <> "/tmp/input_" +:+ t) -> (forall t, p <> "/tmp/segment_" +:+ t) ->
             tmp w' !! p = tmp w !! p) /\
  objects w' !! (bucketName, s3Key) = objects w !! (bucketName, s3Key).
Proof.
  intros Hk Hb Hrun.
  assert (forall x p,
            (forall i, x <> (bucketName, segmentKeyOf (removeExtension s3Key) i)) ->
            (forall t, p <> "/tmp/input_" +:+ t) -> (forall t, p <> "/tmp/segment_" +:+ t) ->
            untouched x p w w') as Hframe.
  { intros x p Hx Hp1 Hp2. revert Hrun. generalize w r w'. change (steps (untouched x p) (handler env event)).
    unfold handler. rewrite Hk, Hb. simpl default.
    apply steps_try_catch; [apply untouched_trans| |intros ?; apply steps_ret, untouched_refl].
    case_match; [apply steps_throw, untouched_refl|].
    apply steps_bind; [apply untouched_trans|apply frame_analyzeAudioFile; assumption|].
    intros audioInfo. case_match; [apply steps_ret, untouched_refl|].
    apply (steps_bind_post _
             (Forall (fun seg => exists rest, seg_path seg = "/tmp/segment_" +:+ rest)));
      [apply untouched_trans| | |].
    { intros w0 segs w1 Hs. eapply splitAudioFileWith_paths, Hs. }
    { apply frame_splitAudioFileWith; assumption. }
    intros segments Hpaths.
    apply steps_bind; [apply untouched_trans|apply frame_uploadLoop; assumption|].
    intros segmentUrls.
    apply steps_bind; [apply untouched_trans| |intros ?; apply steps_ret, untouched_refl].
    apply frame_cleanupTempFiles; assumption. }
  split; [|split].
  - intros x Hx. apply (Hframe x "" Hx); intros t; discriminate.
  - intros p Hp1 Hp2. apply (Hframe ("", "") p); [|assumption|assumption].
    intros i [= _ H]. unfold segmentKeyOf in H.
    destruct (removeExtension s3Key); discriminate H.
  - apply (Hframe (bucketName, s3Key) ""); [|intros t; discriminate|intros t; discriminate].
    intros i [= H]. symmetry in H. revert H. apply segmentKeyOf_not_source.
Qed.

Lemma handler_frame_witness :
  objects (snd (handler (scenario 30000 true None None) meetingEvent meetingWorld))
    !! ("bkt", "meeting.mp3")
  = objects meetingWorld !! ("bkt", "meeting.mp3").
Proof.
  apply (handler_frame (scenario 30000 true None None) meetingEvent "meeting.mp3" "bkt"
           meetingWorld
           (fst (handler (scenario 30000 true None None) meetingEvent meetingWorld))
           (snd (handler (scenario 30000 true None None) meetingEvent meetingWorld))).
  - reflexivity.
  - reflexivity.
  - apply surjective_pairing.
Defined.

(** ** analyzeAudioFile *)

(** X5. A normal completion of analyzeAudioFile made exactly four calls
    (download, scratch write, ffprobe, unlink), reports what ffprobe said
    about the bytes of the source object and leaves the store and every
    other local file as they were. The unlink of the scratch file is only
    started, not awaited: at completion the scratch name holds either
    nothing or the bytes of the source; it is gone when that unlink has gone
    through by then, and still there when it has not. *)
Theorem analyzeAudioFile_normal env s3Key bucketName w info w' :
  analyzeAudioFile env s3Key bucketName w = (Normal info, w') ->
  exists o format w0,
    let tin := "/tmp/input_" +:+ pretty (dateNow env (clockReads w)) +:+ ".mp3" in
    objects w !! (bucketName, s3Key) = Some o /\
    probe env w0 (Body o) = Normal format /\
    info = mkAudioInfo (format_duration format) (format_size format) (format_name format) /\
    calls w' = (calls w ++ [S3GetObject bucketName s3Key; FsWriteFile tin (Body o);
                            Ffprobe tin; FsUnlink tin])%list /\
    objects w' = objects w /\
    (forall p, p <> tin -> tmp w' !! p = tmp w !! p) /\
    (tmp w' !! tin = None \/ tmp w' !! tin = Some (Body o)) /\
    ((forall w1, unlinkLanded env w1 tin = true) -> tmp w' = delete tin (tmp w)) /\
    ((forall w1, unlinkLanded env w1 tin = false) -> tmp w' = <[tin := Body o]> (tmp w)).
Proof.
  unfold analyzeAudioFile, try_catch, bind, Date_now, s3_getObject, writeFile, ffprobe,
    unlink_detached, ret, throw.
  intros H. repeat case_match; simplify_eq; simpl in *;
    repeat match goal with
           | Hl : <[?k := ?v]> ?m !! ?k = _ |- _ => rewrite lookup_insert_eq in Hl
           end; simplify_eq.
  - do 3 eexists. split; [eassumption|]. split; [eassumption|]. split; [reflexivity|].
    split; [rewrite <- !app_assoc; reflexivity|]. split; [reflexivity|].
    split; [|split; [|split]].
    + intros p Hp. rewrite lookup_delete_ne, lookup_insert_ne by (apply not_eq_sym, Hp).
      reflexivity.
    + left. apply lookup_delete_eq.
    + intros _. apply delete_insert_eq.
    + intros Hno. congruence.
  - do 3 eexists. split; [eassumption|]. split; [eassumption|]. split; [reflexivity|].
    split; [rewrite <- !app_assoc; reflexivity|]. split; [reflexivity|].
    split; [|split; [|split]].
    + intros p Hp. rewrite lookup_insert_ne by (apply not_eq_sym, Hp). reflexivity.
    + right. apply lookup_insert_eq.
    + intros Hyes. congruence.
    + intros _. reflexivity.
Qed.

Lemma analyzeAudioFile_normal_witness :
  exists o format w0,
    objects meetingWorld !! ("bkt", "meeting.mp3") = Some o /\
    probe (scenario 14400 true None None) w0 (Body o) = Normal format /\
    mkAudioInfo 14400 1024 "mp3"
      = mkAudioInfo (format_duration format) (format_size format) (format_name format) /\
    tmp (snd (analyzeAudioFile (scenario 14400 true None None) "meeting.mp3" "bkt" meetingWorld))
      = delete "/tmp/input_1700000000000.mp3" (tmp meetingWorld).
Proof.
  destruct (analyzeAudioFile_normal (scenario 14400 true None None) "meeting.mp3" "bkt"
              meetingWorld (mkAudioInfo 14400 1024 "mp3")
              (snd (analyzeAudioFile (scenario 14400 true None None) "meeting.mp3" "bkt"
                      meetingWorld)))
    as (o & format & w0 & Ho & Hp & Hi & _ & _ & _ & _ & Ht & _).
  - vm_compute. reflexivity.
  - exists o, format, w0. split; [exact Ho|]. split; [exact Hp|]. split; [exact Hi|].
    apply Ht. intros w1. reflexivity.
Defined.

(** X6. When analyzeAudioFile throws, the store is as it was and one of
    three things happened: the download failed and nothing was written; the
    scratch write failed; or ffprobe failed, and then the scratch copy of the
    source is still in /tmp and no unlink was attempted. *)
Theorem analyzeAudioFile_thrown env s3Key bucketName w e w' :
  analyzeAudioFile env s3Key bucketName w = (Thrown e, w') ->
  let tin := "/tmp/input_" +:+ pretty (dateNow env (clockReads w)) +:+ ".mp3" in
  objects w' = objects w /\
  ((calls w' = (calls w ++ [S3GetObject bucketName s3Key])%list /\ tmp w' = tmp w) \/
   (exists o,
      objects w !! (bucketName, s3Key) = Some o /\
      calls w' = (calls w ++ [S3GetObject bucketName s3Key; FsWriteFile tin (Body o)])%list /\
      tmp w' = tmp w) \/
   (exists o,
      objects w !! (bucketName, s3Key) = Some o /\
      calls w' = (calls w ++ [S3GetObject bucketName s3Key; FsWriteFile tin (Body o);
                              Ffprobe tin])%list /\
      tmp w' = <[tin := Body o]> (tmp w))).
Proof.
  unfold analyzeAudioFile, try_catch, bind, Date_now, s3_getObject, writeFile, ffprobe,
    unlink_detached, ret, throw.
  intros H. repeat case_match; simplify_eq; simpl in *;
    repeat match goal with
           | Hl : <[?k := ?v]> ?m !! ?k = _ |- _ => rewrite lookup_insert_eq in Hl
           end; simplify_eq;
    (split; [reflexivity|]);
    try (left; split; reflexivity);
    try (right; left; eexists; split; [eassumption|];
         split; [rewrite <- !app_assoc; reflexivity|reflexivity]);
    try (right; right; eexists; split; [eassumption|];
         split; [rewrite <- !app_assoc; reflexivity|reflexivity]).
Qed.

Lemma analyzeAudioFile_thrown_witness :
  objects (snd (analyzeAudioFile (scenario 30000 false None None) "meeting.mp3" "bkt"
                  meetingWorld))
  = objects meetingWorld.
Proof.
  refine (proj1 (analyzeAudioFile_thrown (scenario 30000 false None None) "meeting.mp3" "bkt"
                   meetingWorld
                   (mkError "ffprobe exited with code 1" "Error: ffprobe exited with code 1")
                   _ _)).
  vm_compute. reflexivity.
Defined.

(** ** cleanupTempFiles *)

Lemma unlink_caught env path w :
  exists w',
    try_catch (unlink env path) (fun _ => ret tt) w = (Normal tt, w') /\
    objects w' = objects w /\
    calls w' = (calls w ++ [FsUnlink path])%list /\
    (tmp w' = tmp w \/ tmp w' = delete path (tmp w)) /\
    (unlinkFault env w path = None -> tmp w' = delete path (tmp w)) /\
    (unlinkFault env w path <> None -> tmp w' = tmp w).
Proof.
  unfold try_catch, unlink, ret.
  destruct (unlinkFault env w path) as [e|] eqn:Ef.
  - eexists. split; [reflexivity|]. repeat split; auto; intros; congruence.
  - destruct (tmp w !! path) as [data|] eqn:E.
    + eexists. split; [reflexivity|]. repeat split; auto; intros; congruence.
    + eexists. split; [reflexivity|]. repeat split; auto; try (intros; congruence).
      intros _. simpl. symmetry. apply delete_id. exact E.
Qed.

(** One unlink per segment, each failure caught: no file appears or
    changes, the paths of other files are left alone, a path whose unlink
    does not fault is gone, and a path whose unlink always faults stays. *)
Lemma cleanupTempFiles_run env segments :
  forall w,
    exists w',
      cleanupTempFiles env segments w = (Normal tt, w') /\
      calls w' = (calls w ++ map (fun seg => FsUnlink (seg_path seg)) segments)%list /\
      objects w' = objects w /\
      (forall p, tmp w' !! p = None \/ tmp w' !! p = tmp w !! p) /\
      (forall p, p ∉ map seg_path segments -> tmp w' !! p = tmp w !! p) /\
      (forall p, p ∈ map seg_path segments ->
                 (forall w0, unlinkFault env w0 p = None) -> tmp w' !! p = None) /\
      (forall p, (forall w0, unlinkFault env w0 p <> None) -> tmp w' !! p = tmp w !! p).
Proof.
  induction segments as [|segment rest IH]; intros w.
  - exists w. simpl. rewrite app_nil_r. repeat split; auto.
    intros p Hp. apply elem_of_nil in Hp. contradiction.
  - cbn [cleanupTempFiles]. unfold bind at 1.
    destruct (unlink_caught env (seg_path segment) w)
      as (w1 & -> & Hobj & Hcalls & Htmp & Hgone & Hstays).
    destruct (IH w1) as (w' & Hrun & Hcalls' & Hobj' & Hsub & Hframe & Hdel & Hkeep).
    assert (forall p, tmp w1 !! p = None \/ tmp w1 !! p = tmp w !! p) as Hsub1.
    { intros p. destruct Htmp as [->| ->]; [right; reflexivity|].
      destruct (decide (seg_path segment = p)) as [<-|Hne].
      - left. apply lookup_delete_eq.
      - right. apply lookup_delete_ne. exact Hne. }
    assert (forall p, p <> seg_path segment -> tmp w1 !! p = tmp w !! p) as Hframe1.
    { intros p Hne. destruct Htmp as [->| ->]; [reflexivity|].
      apply lookup_delete_ne. apply not_eq_sym, Hne. }
    exists w'. split; [exact Hrun|].
    split; [rewrite Hcalls', Hcalls, <- app_assoc; reflexivity|].
    split; [rewrite Hobj', Hobj; reflexivity|].
    split; [|split; [|split]].
    + intros p. destruct (Hsub p) as [E|E]; [left; exact E|].
      rewrite E. apply Hsub1.
    + intros p Hp. cbn [map] in Hp. apply not_elem_of_cons in Hp as [Hne Hp].
      rewrite (Hframe p Hp). apply Hframe1, Hne.
    + intros p Hp Hok. cbn [map] in Hp. apply elem_of_cons in Hp as [->|Hp].
      * destruct (Hsub (seg_path segment)) as [E|E]; [exact E|].
        rewrite E, (Hgone (Hok w)). apply lookup_delete_eq.
      * apply (Hdel p Hp Hok).
    + intros p Hbad. rewrite (Hkeep p Hbad).
      destruct (decide (p = seg_path segment)) as [->|Hne].
      * rewrite (Hstays (Hbad w)). reflexivity.
      * apply Hframe1, Hne.
Qed.

(** X7. cleanupTempFiles never throws: it attempts one unlink per segment,
    in order, a failed unlink not stopping the later ones. Afterwards the
    store is unchanged, every local file that is not a segment's is as it
    was, and no file has appeared or changed. A segment's path is gone when
    its unlink does not fail; a file whose unlink fails stays where it
    was. *)
Theorem cleanupTempFiles_removes env segments w :
  exists w',
    cleanupTempFiles env segments w = (Normal tt, w') /\
    calls w' = (calls w ++ map (fun seg => FsUnlink (seg_path seg)) segments)%list /\
    objects w' = objects w /\
    (forall p, p ∉ map seg_path segments -> tmp w' !! p = tmp w !! p) /\
    (forall p, tmp w' !! p = None \/ tmp w' !! p = tmp w !! p) /\
    (forall p, p ∈ map seg_path segments ->
               (forall w0, unlinkFault env w0 p = None) -> tmp w' !! p = None) /\
    (forall p, (forall w0, unlinkFault env w0 p <> None) -> tmp w' !! p = tmp w !! p).
Proof.
  destruct (cleanupTempFiles_run env segments w)
    as (w' & Hrun & Hcalls & Hobj & Hsub & Hframe & Hdel & Hkeep).
  exists w'. repeat (split; [assumption|]). exact Hkeep.
Qed.

(** ** Errors reach the caller *)

(** X8. When a stage throws, the handler resolves to the statusCode 500
    result that carries the message and the stack of that very error, in
    the world the failing stage left: the later stages are not run. This
    holds for the probe, for the splitter and for the publisher. *)
Theorem handler_reports_stage_error env event s3Key bucketName w :
  ev_s3Key event = Some s3Key -> ev_bucketName event = Some bucketName ->
  s3Key <> "" -> bucketName <> "" ->
  (forall e w1,
     analyzeAudioFile env s3Key bucketName w = (Thrown e, w1) ->
     handler env event w = (Normal (mkResponse 500 (ErrorBody (message e) (stack e))), w1)) /\
  (forall info w1 e w2,
     analyzeAudioFile env s3Key bucketName w = (Normal info, w1) ->
     js_lt 14400 (audio_duration info) ->
     splitAudioFile env s3Key bucketName (audio_duration info) w1 = (Thrown e, w2) ->
     handler env event w = (Normal (mkResponse 500 (ErrorBody (message e) (stack e))), w2)) /\
  (forall info w1 segs w2 e w3,
     analyzeAudioFile env s3Key bucketName w = (Normal info, w1) ->
     js_lt 14400 (audio_duration info) ->
     splitAudioFile env s3Key bucketName (audio_duration info) w1 = (Normal segs, w2) ->
     uploadSegments env segs bucketName s3Key w2 = (Thrown e, w3) ->
     handler env event w = (Normal (mkResponse 500 (ErrorBody (message e) (stack e))), w3)).
Proof.
  intros Hk Hb Hk0 Hb0.
  pose proof (fun d => js_leb_lt d fourHoursInSeconds) as Hgate.
  split; [|split].
  - intros e w1 Han. rewrite (handler_present _ _ _ _ _ Hk Hb Hk0 Hb0).
    unfold try_catch, bind. rewrite Han. reflexivity.
  - intros info w1 e w2 Han Hd Hsp. rewrite (handler_present _ _ _ _ _ Hk Hb Hk0 Hb0).
    unfold try_catch, bind. rewrite Han, (Hgate _ Hd), Hsp. reflexivity.
  - intros info w1 segs w2 e w3 Han Hd Hsp Hup.
    rewrite (handler_present _ _ _ _ _ Hk Hb Hk0 Hb0).
    unfold try_catch, bind. rewrite Han, (Hgate _ Hd), Hsp, Hup. reflexivity.
Qed.

Lemma handler_reports_stage_error_witness :
  handler (scenario 30000 false None None) meetingEvent meetingWorld
  = (Normal (mkResponse 500 (ErrorBody "ffprobe exited with code 1"
                               "Error: ffprobe exited with code 1")),
     snd (analyzeAudioFile (scenario 30000 false None None) "meeting.mp3" "bkt" meetingWorld)).
Proof.
  refine (proj1 (handler_reports_stage_error (scenario 30000 false None None) meetingEvent
                   "meeting.mp3" "bkt" meetingWorld eq_refl eq_refl _ _)
            (mkError "ffprobe exited with code 1" "Error: ffprobe exited with code 1") _ _).
  - discriminate.
  - discriminate.
  - vm_compute. reflexivity.
Defined.

(** ** uploadSegments, when it succeeds *)

Lemma segmentKeyOf_inj baseKey i j : segmentKeyOf baseKey i = segmentKeyOf baseKey j -> i = j.
Proof.
  unfold segmentKeyOf. intros H.
  apply (inj (String.append _)) in H. apply (inj (String.append _)) in H.
  apply string_app_inv_tail in H. apply (inj pretty) in H. exact H.
Qed.

Section UploadSuccess.

Variable env : Env.
Variables bucketName originalS3Key : string.

Let baseKey := removeExtension originalS3Key.

(** One turn of the loop of uploadSegments, when nothing fails. *)
Lemma upload_one segment rest acc w data :
  tmp w !! seg_path segment = Some data ->
  (forall w0 req, put_Key req = segmentKeyOf baseKey (seg_index segment) ->
                  putFault env w0 req = None) ->
  uploadLoop env bucketName originalS3Key baseKey (segment :: rest) acc w
  = uploadLoop env bucketName originalS3Key baseKey rest
      (acc ++ [segmentUrlOf bucketName baseKey segment])%list
      (set_objects
         (<[(bucketName, segmentKeyOf baseKey (seg_index segment)) :=
              mkObject data "audio/mpeg" (segmentMetadata env originalS3Key segment)]>
            (objects w))
         (log (S3PutObject (mkPut bucketName (segmentKeyOf baseKey (seg_index segment)) data
                              "audio/mpeg" (segmentMetadata env originalS3Key segment)))
            (log (FsReadFile (seg_path segment)) w))).
Proof.
  intros Hdata Hput.
  cbn [uploadLoop]. unfold bind at 1.
  unfold try_catch at 1. unfold bind at 1. unfold readFile at 1. rewrite Hdata.
  unfold bind at 1. unfold s3_putObject at 1. rewrite Hput by reflexivity.
  reflexivity.
Qed.

Lemma uploadLoop_success segments :
  forall acc w,
    Forall (fun s => is_Some (tmp w !! seg_path s) /\
                     forall w0 req, put_Key req = segmentKeyOf baseKey (seg_index s) ->
                                    putFault env w0 req = None) segments ->
    exists w',
      uploadLoop env bucketName originalS3Key baseKey segments acc w
        = (Normal (acc ++ map (segmentUrlOf bucketName baseKey) segments)%list, w') /\
      tmp w' = tmp w /\
      (forall x, (forall s, s ∈ segments ->
                    x <> (bucketName, segmentKeyOf baseKey (seg_index s))) ->
                 objects w' !! x = objects w !! x) /\
      (NoDup (map seg_index segments) ->
       forall s, s ∈ segments ->
         objects w' !! (bucketName, segmentKeyOf baseKey (seg_index s))
         = Some (mkObject (default [] (tmp w !! seg_path s)) "audio/mpeg"
                   (segmentMetadata env originalS3Key s))).
Proof.
  induction segments as [|s rest IH]; intros acc w Hall.
  - exists w. simpl. rewrite app_nil_r. repeat split; auto.
    intros _ s Hs. apply elem_of_nil in Hs. contradiction.
  - apply Forall_cons in Hall as [[[data Hdata] Hput] Hrest].
    rewrite (upload_one s rest acc w data Hdata Hput).
    set (w1 := set_objects _ _).
    destruct (IH (acc ++ [segmentUrlOf bucketName baseKey s])%list w1)
      as (w' & Hrun & Htmp & Hframe & Hstored).
    { eapply Forall_impl; [exact Hrest|]. intros s' [Hs' Hp']. split; [exact Hs'|exact Hp']. }
    exists w'. split; [rewrite Hrun, <- app_assoc; reflexivity|].
    split; [rewrite Htmp; reflexivity|]. split.
    + intros x Hx. rewrite Hframe.
      * subst w1. simpl. apply lookup_insert_ne. apply not_eq_sym, Hx. left.
      * intros s' Hs'. apply Hx. right. exact Hs'.
    + intros Hnd s' Hs'. simpl in Hnd. apply NoDup_cons in Hnd as [Hnin Hnd].
      apply elem_of_cons in Hs' as [->|Hs'].
      * rewrite Hframe.
        -- subst w1. simpl. rewrite lookup_insert_eq.
           rewrite (f_equal (from_option id []) Hdata : default [] (tmp w !! seg_path s) = data).
           reflexivity.
        -- intros s' Hs' [= E]. apply segmentKeyOf_inj in E.
           apply Hnin. rewrite E. apply list_elem_of_fmap. exists s'. auto.
      * apply (Hstored Hnd s' Hs').
Qed.

End UploadSuccess.

(** X9. With every segment file present and no put refused, uploadSegments
    completes normally and returns one entry per segment, in order, with the
    URL s3://bucket/key, the derived key and the segment's index, start and
    duration. Local files are untouched, the store changes only under the
    derived keys, and when the indices are pairwise distinct the object
    stored for a segment holds the bytes of its file, the content type
    audio/mpeg and the four metadata entries. *)
Theorem uploadSegments_stores env segments bucketName originalS3Key w :
  Forall (fun s => is_Some (tmp w !! seg_path s)) segments ->
  (forall w0 req, putFault env w0 req = None) ->
  exists w',
    uploadSegments env segments bucketName originalS3Key w
      = (Normal (map (segmentUrlOf bucketName (removeExtension originalS3Key)) segments), w') /\
    tmp w' = tmp w /\
    (forall x, (forall s, s ∈ segments ->
                  x <> (bucketName, segmentKeyOf (removeExtension originalS3Key) (seg_index s))) ->
               objects w' !! x = objects w !! x) /\
    (NoDup (map seg_index segments) ->
     forall s data, s ∈ segments -> tmp w !! seg_path s = Some data ->
       objects w' !! (bucketName, segmentKeyOf (removeExtension originalS3Key) (seg_index s))
       = Some (mkObject data "audio/mpeg"
                 [("original-file", originalS3Key);
                  ("segment-index", pretty (seg_index s));
                  ("segment-start-time", numberToString env (seg_startTime s));
                  ("segment-duration", numberToString env (seg_duration s))])).
Proof.
  intros Hfiles Hput.
  destruct (uploadLoop_success env bucketName originalS3Key segments [] w)
    as (w' & Hrun & Htmp & Hframe & Hstored).
  { eapply Forall_impl; [exact Hfiles|]. intros s Hs. split; [exact Hs|]. intros; apply Hput. }
  exists w'. split; [exact Hrun|]. split; [exact Htmp|]. split; [exact Hframe|].
  intros Hnd s data Hs Hdata. rewrite (Hstored Hnd s Hs).
  rewrite (f_equal (from_option id []) Hdata : default [] (tmp w !! seg_path s) = data).
  reflexivity.
Qed.

Lemma uploadSegments_stores_witness :
  exists w',
    uploadSegments (scenario 30000 true None None)
      [mkSegment 0 "/tmp/segment_0_17.mp3" 0 12600] "bkt" "meeting.mp3"
      (mkWorld ∅ {[ "/tmp/segment_0_17.mp3" := [] ]} [] 0)
    = (Normal [mkSegmentUrl "s3://bkt/meeting_segment_0.mp3" "meeting_segment_0.mp3" 0 0 12600],
       w').
Proof.
  destruct (uploadSegments_stores (scenario 30000 true None None)
              [mkSegment 0 "/tmp/segment_0_17.mp3" 0 12600] "bkt" "meeting.mp3"
              (mkWorld ∅ {[ "/tmp/segment_0_17.mp3" := [] ]} [] 0))
    as (w' & Hrun & _).
  - constructor; [|constructor]. exists []. reflexivity.
  - reflexivity.
  - exists w'. exact Hrun.
Defined.

(** X10. When the files of the segments before position [n] are present and
    their puts accepted, but the file of the segment at position [n] is
    missing, uploadSegments throws at that segment without attempting its
    put: exactly [n] puts were made, and local files are untouched. *)
Theorem uploadSegments_missing_file env segments bucketName originalS3Key w (n : nat) segment :
  segments !! n = Some segment ->
  Forall (fun s => is_Some (tmp w !! seg_path s)) (take n segments) ->
  (forall w0 req, putFault env w0 req = None) ->
  tmp w !! seg_path segment = None ->
  exists e w',
    uploadSegments env segments bucketName originalS3Key w = (Thrown e, w') /\
    length (List.filter is_put (calls w')) = (length (List.filter is_put (calls w)) + n)%nat /\
    last (calls w') = Some (FsReadFile (seg_path segment)) /\
    tmp w' = tmp w.
Proof.
  intros Hseg Hfiles Hput Hmissing.
  destruct (uploadLoop_prefix env bucketName originalS3Key (take n segments)
              (segment :: drop (S n) segments) [] w)
    as (w1 & acc & Hrun & Htmp & _ & _ & Hputs).
  { eapply Forall_impl; [exact Hfiles|]. intros s Hs. split; [exact Hs|]. intros; apply Hput. }
  rewrite (take_drop_middle segments n segment Hseg) in Hrun.
  unfold uploadSegments. rewrite Hrun.
  cbn [uploadLoop]. unfold bind at 1. unfold try_catch at 1.
  unfold bind at 1. unfold readFile at 1. rewrite Htmp, Hmissing.
  unfold throw. do 2 eexists. split; [reflexivity|]. split; [|split].
  - simpl. rewrite List.filter_app. simpl. rewrite app_nil_r, Hputs.
    rewrite length_app, length_map, length_take_le; [reflexivity|].
    apply lookup_lt_Some in Hseg. lia.
  - simpl. apply last_snoc.
  - simpl. exact Htmp.
Qed.

Lemma uploadSegments_missing_file_witness :
  exists e w',
    uploadSegments (scenario 30000 true None None)
      [mkSegment 0 "/tmp/segment_0_17.mp3" 0 12600; mkSegment 1 "/tmp/segment_1_18.mp3" 12600 12600]
      "bkt" "meeting.mp3"
      (mkWorld ∅ {[ "/tmp/segment_0_17.mp3" := [] ]} [] 0) = (Thrown e, w') /\
    length (List.filter is_put (calls w')) = 1%nat.
Proof.
  destruct (uploadSegments_missing_file (scenario 30000 true None None)
              [mkSegment 0 "/tmp/segment_0_17.mp3" 0 12600;
               mkSegment 1 "/tmp/segment_1_18.mp3" 12600 12600]
              "bkt" "meeting.mp3"
              (mkWorld ∅ {[ "/tmp/segment_0_17.mp3" := [] ]} [] 0) 1
              (mkSegment 1 "/tmp/segment_1_18.mp3" 12600 12600))
    as (e & w' & Hrun & Hn & _).
  - reflexivity.
  - constructor; [|constructor]. exists []. reflexivity.
  - reflexivity.
  - reflexivity.
  - exists e, w'. split; [exact Hrun|exact Hn].
Defined.

(** ** The run in which nothing fails *)

Section Success.

Variable env : Env.

Lemma analyzeAudioFile_succeeds s3Key bucketName w o format :
  (forall w0, getFault env w0 bucketName s3Key = None) ->
  objects w !! (bucketName, s3Key) = Some o ->
  (forall w0 p d, writeFault env w0 p d = None) ->
  (forall w0, probe env w0 (Body o) = Normal format) ->
  (forall w0 p, unlinkLanded env w0 p = true) ->
  exists w',
    analyzeAudioFile env s3Key bucketName w
      = (Normal (mkAudioInfo (format_duration format) (format_size format) (format_name format)),
         w') /\
    objects w' = objects w /\
    tmp w' = delete ("/tmp/input_" +:+ pretty (dateNow env (clockReads w)) +:+ ".mp3") (tmp w).
Proof.
  intros Hget Ho Hwr Hprobe Hland.
  unfold analyzeAudioFile, try_catch, bind, Date_now, s3_getObject, writeFile, ffprobe,
    unlink_detached, ret, throw. simpl.
  rewrite Hget, Ho, Hwr. simpl. rewrite lookup_insert_eq, Hprobe. simpl.
  rewrite Hland. eexists. split; [reflexivity|]. split; [reflexivity|].
  simpl. apply delete_insert_eq.
Qed.

Lemma createSegments_tmp_bound L tin T todo :
  forall i acc w segs w',
    createSegments env L tin T todo i acc w = (Normal segs, w') ->
    forall p, is_Some (tmp w' !! p) ->
              is_Some (tmp w !! p) \/ p ∈ map seg_path segs.
Proof.
  induction todo as [|todo IH]; intros i acc w segs w' H p Hp; simpl in H.
  - injection H as <- <-. left. exact Hp.
  - unfold bind at 1 in H. unfold Date_now at 1 in H.
    set (w0 := mkWorld _ _ _ _) in H. set (now := dateNow env (clockReads w)) in H.
    unfold bind at 1 in H.
    destruct (ffmpeg_save env _ _ _ _ _ w0) as [[[]|e] w1] eqn:Eff; [|discriminate].
    apply ffmpeg_save_normal in Eff as [out ->].
    pose proof (createSegments_spec _ _ _ _ _ _ _ _ _ _ H) as (new & Hsegs & _).
    destruct (IH _ _ _ _ _ H p Hp) as [Hin|Hin]; [|right; exact Hin].
    simpl in Hin. rewrite lookup_insert in Hin. case_decide as Hd; [|left; exact Hin].
    right. rewrite Hsegs, !map_app. apply elem_of_app. left. apply elem_of_app. right.
    simpl. rewrite <- Hd. apply list_elem_of_singleton. reflexivity.
Qed.

Lemma splitAudioFileWith_tmp_bound L s3Key bucketName T w segs w' :
  splitAudioFileWith env L s3Key bucketName T w = (Normal segs, w') ->
  forall p, is_Some (tmp w' !! p) ->
            is_Some (tmp w !! p) \/ p ∈ map seg_path segs.
Proof.
  unfold splitAudioFileWith. intros H p Hp.
  unfold bind at 1 in H. unfold Date_now at 1 in H.
  set (w0 := mkWorld _ _ _ _) in H. set (now := dateNow env (clockReads w)) in H.
  set (tin := "/tmp/input_" +:+ pretty now +:+ ".mp3") in H.
  unfold bind at 1 in H.
  destruct (s3_getObject env bucketName s3Key w0) as [[o|e] w1] eqn:Eget; [|discriminate].
  apply s3_getObject_normal in Eget as [-> Ho].
  unfold bind at 1 in H.
  destruct (writeFile env tin (Body o) _) as [[[]|e] w2] eqn:Ewr; [|discriminate].
  apply writeFile_normal in Ewr as ->.
  unfold bind at 1 in H.
  destruct (createSegments env L tin T _ 0 [] _) as [[segments|e] w3] eqn:Ecs; [|discriminate].
  unfold bind at 1 in H.
  destruct (unlink env tin w3) as [[[]|e] w4] eqn:Eun; [|discriminate].
  apply unlink_normal in Eun as ->.
  injection H as <- <-. simpl in Hp.
  rewrite lookup_delete in Hp. case_decide as Hd; [destruct Hp; discriminate|].
  destruct (createSegments_tmp_bound _ _ _ _ _ _ _ _ _ Ecs p Hp) as [Hin|Hin]; [|right; exact Hin].
  left. simpl in Hin. rewrite lookup_insert_ne in Hin by exact Hd. exact Hin.
Qed.

End Success.

(** X11. When the source is in the store, ffprobe reports a number above
    four hours, nothing faults (store, disk writes and unlinks, ffmpeg) and
    the probe's unlink of its scratch file has gone through, the handler
    resolves to statusCode 200 with split-complete: the original key, one
    entry per planned segment ([ceil(duration / 12600)] of them, entry [i]
    carrying index [i], the derived key and its s3:// URL), and the probed
    duration. Every listed key is then in the store, and no local file is
    left behind: whatever is in /tmp afterwards was there before. *)
Theorem handler_split_success env event s3Key bucketName w o format (d : Q) :
  ev_s3Key event = Some s3Key -> ev_bucketName event = Some bucketName ->
  s3Key <> "" -> bucketName <> "" ->
  (forall w0, getFault env w0 bucketName s3Key = None) ->
  objects w !! (bucketName, s3Key) = Some o ->
  (forall w0 p d, writeFault env w0 p d = None) ->
  (forall w0 p, unlinkFault env w0 p = None) ->
  (forall w0 p, unlinkLanded env w0 p = true) ->
  (forall w0, probe env w0 (Body o) = Normal format) ->
  format_duration format = Num d ->
  (14400 < d)%Q ->
  (forall w0 d s du c, exists out, transcode env w0 d s du c = Normal out) ->
  (forall w0 req, putFault env w0 req = None) ->
  exists urls w',
    handler env event w
      = (Normal (mkResponse 200 (SplitComplete s3Key (length urls) urls
                                   (format_duration format))), w') /\
    length urls = Z.to_nat (Qceiling (d / segmentDuration)) /\
    (forall i u, urls !! i = Some u ->
       su_index u = i /\
       su_key u = segmentKeyOf (removeExtension s3Key) i /\
       su_url u = "s3://" +:+ bucketName +:+ "/" +:+ su_key u /\
       is_Some (objects w' !! (bucketName, su_key u))) /\
    (forall p, is_Some (tmp w' !! p) -> is_Some (tmp w !! p)).
Proof.
  intros Hk Hb Hk0 Hb0 Hget Ho Hwr Hun Hland Hprobe Hfmt Hd Htr Hput.
  destruct (analyzeAudioFile_succeeds env s3Key bucketName w o format Hget Ho Hwr Hprobe Hland)
    as (w1 & Han & Hobj1 & Htmp1).
  assert (objects w1 !! (bucketName, s3Key) = Some o) as Ho1 by (rewrite Hobj1; exact Ho).
  destruct (splitAudioFileWith_succeeds env segmentDuration s3Key bucketName
              d w1 o Hget Ho1 Hwr Hun Htr) as (segs & w2 & Hsp).
  destruct (splitAudioFileWith_spec _ _ _ _ _ _ _ _ Hsp) as (tin & o' & Hwin & _ & Hobj2 & Hfiles).
  pose proof (splitAudioFileWith_tmp_bound _ _ _ _ _ _ _ _ Hsp) as Hbound.
  destruct (uploadLoop_success env bucketName s3Key segs [] w2)
    as (w3 & Hup & Htmp3 & _ & Hstored).
  { eapply Forall_impl; [exact Hfiles|]. intros s Hs. split; [exact Hs|]. intros; apply Hput. }
  destruct (cleanupTempFiles_run env segs w3)
    as (w4 & Hcl & _ & Hobj4 & Hsub4 & Hframe4 & Hdel4 & _).
  assert (map seg_index segs = seq 0 (Z.to_nat (Qceiling (d / segmentDuration))))
    as Hidx.
  { assert (map seg_index segs = map (fun x => fst (fst x)) (map window segs)) as ->
      by (rewrite map_map; reflexivity).
    rewrite Hwin, map_map. simpl. apply map_id. }
  exists (map (segmentUrlOf bucketName (removeExtension s3Key)) segs), w4.
  split; [|split; [|split]].
  - rewrite (handler_present _ _ _ _ _ Hk Hb Hk0 Hb0).
    unfold try_catch, bind. rewrite Han. cbn [audio_duration]. rewrite Hfmt.
    rewrite (js_leb_lt (Num d) fourHoursInSeconds Hd).
    unfold splitAudioFile. rewrite Hsp. unfold uploadSegments. rewrite Hup, Hcl. reflexivity.
  - rewrite length_map, <- (length_map seg_index), Hidx, length_seq. reflexivity.
  - intros i u Hu. rewrite list_lookup_fmap in Hu.
    destruct (segs !! i) as [s|] eqn:Es; [|discriminate]. injection Hu as <-.
    assert (seg_index s = i) as Hi.
    { assert (map seg_index segs !! i = Some (seg_index s)) as Hl
        by (rewrite list_lookup_fmap, Es; reflexivity).
      rewrite Hidx in Hl. apply lookup_seq in Hl as [-> _]. reflexivity. }
    simpl. rewrite Hi. repeat split.
    rewrite Hobj4, <- Hi, (Hstored ltac:(rewrite Hidx; apply NoDup_seq) s).
    + eauto.
    + apply list_elem_of_lookup. eauto.
  - intros p Hp.
    destruct (decide (p ∈ map seg_path segs)) as [Hin|Hin].
    { rewrite (Hdel4 p Hin (fun w0 => Hun w0 p)) in Hp. destruct Hp; discriminate. }
    rewrite (Hframe4 p Hin) in Hp.
    rewrite Htmp3 in Hp. destruct (Hbound p Hp) as [Hp1|Hp1]; [|contradiction].
    rewrite Htmp1 in Hp1. rewrite lookup_delete in Hp1.
    case_decide; [destruct Hp1; discriminate|exact Hp1].
Qed.

Lemma handler_split_success_witness :
  exists urls w',
    handler (scenario 30000 true None None) meetingEvent meetingWorld
      = (Normal (mkResponse 200 (SplitComplete "meeting.mp3" (length urls) urls 30000)), w') /\
    length urls = 3%nat.
Proof.
  destruct (handler_split_success (scenario 30000 true None None) meetingEvent
              "meeting.mp3" "bkt" meetingWorld (mkObject [] "audio/mpeg" [])
              (mkFormat 30000 1024 "mp3") 30000)
    as (urls & w' & Hrun & Hlen & _).
  - reflexivity.
  - reflexivity.
  - discriminate.
  - discriminate.
  - reflexivity.
  - vm_compute. reflexivity.
  - reflexivity.
  - reflexivity.
  - reflexivity.
  - reflexivity.
  - reflexivity.
  - reflexivity.
  - intros w0 d s du c. eexists. reflexivity.
  - intros w0 req. reflexivity.
  - exists urls, w'. split; [exact Hrun|]. rewrite Hlen. vm_compute. reflexivity.
Defined.

(** ** What a split-complete result says *)

Lemma uploadLoop_normal env bucketName originalS3Key baseKey segments :
  forall acc w urls w',
    uploadLoop env bucketName originalS3Key baseKey segments acc w = (Normal urls, w') ->
    urls = (acc ++ map (segmentUrlOf bucketName baseKey) segments)%list.
Proof.
  induction segments as [|s rest IH]; intros acc w urls w' H.
  - simpl in H. injection H as <- <-. simpl. rewrite app_nil_r. reflexivity.
  - cbn [uploadLoop] in H. unfold bind at 1 in H.
    destruct (try_catch _ _ w) as [[acc'|e] w1] eqn:E; [|discriminate].
    apply IH in H. rewrite H.
    unfold try_catch, bind, readFile, s3_putObject, ret, throw in E.
    repeat case_match; simplify_eq. rewrite <- app_assoc. reflexivity.
Qed.

Lemma falsy_false_inv v : falsy v = false -> exists s, v = Some s /\ s <> "".
Proof.
  unfold falsy. destruct v as [s|]; [|discriminate].
  case_decide; [discriminate|]. eauto.
Qed.

(** X12. Whatever the outside world did, a split-complete result has
    status code 200, the event's key and a count equal to the length of its
    list, and its duration is what the probe reported: either NaN (ffprobe
    gave no duration to read), and then the list is empty and the count 0;
    or a number above four hours, and then the count is
    [ceil(duration / 12600)], at least 2, entry [i] carries index [i], the
    derived key, the start [i * 12600] and a positive duration of at most
    12600 seconds, so that every published segment is within the four-hour
    limit, and the durations add up to the duration reported. *)
Theorem handler_split_complete_result env event w sc key n urls (d : JsNumber) w' :
  handler env event w = (Normal (mkResponse sc (SplitComplete key n urls d)), w') ->
  sc = 200%Z /\ ev_s3Key event = Some key /\ n = length urls /\
  ((d = NaN /\ urls = []) \/
   (exists q : Q,
      d = Num q /\ (14400 < q)%Q /\
      n = Z.to_nat (Qceiling (q / segmentDuration)) /\ (2 <= n)%nat /\
      (forall i u, urls !! i = Some u ->
         su_index u = i /\
         su_key u = segmentKeyOf (removeExtension key) i /\
         su_startTime u = (inject_Z (Z.of_nat i) * segmentDuration)%Q /\
         js_lt 0 (su_duration u) /\ js_le (su_duration u) segmentDuration /\
         js_lt (su_duration u) 14400) /\
      js_eq (sumJs (map su_duration urls)) d)).
Proof.
  unfold handler, try_catch. intros H.
  destruct (falsy (ev_s3Key event) || falsy (ev_bucketName event)) eqn:Ef;
    [discriminate H|].
  apply orb_false_iff in Ef as [Ek Eb].
  apply falsy_false_inv in Ek as (k & Hk & _). apply falsy_false_inv in Eb as (b & Hb & _).
  rewrite Hk, Hb in H. simpl default in H. unfold bind at 1 in H.
  destruct (analyzeAudioFile env k b w) as [[info|e] w1]; [|discriminate H].
  destruct (js_leb (audio_duration info) fourHoursInSeconds) eqn:Egate; [discriminate H|].
  unfold bind at 1 in H.
  destruct (splitAudioFile env k b (audio_duration info) w1) as [[segs|e] w2] eqn:Esp;
    [|discriminate H].
  unfold bind at 1 in H.
  destruct (uploadSegments env segs b k w2) as [[urls'|e] w3] eqn:Eup; [|discriminate H].
  unfold bind at 1 in H.
  destruct (cleanupTempFiles env segs w3) as [[[]|e] w4]; [|discriminate H].
  unfold ret in H. injection H as <- <- <- <- <- <-.
  apply uploadLoop_normal in Eup. simpl in Eup. subst urls'.
  split; [reflexivity|]. split; [exact Hk|]. split; [reflexivity|].
  destruct (js_leb_false _ Egate) as [Enan|(q & Eq & Hd)].
  { left. split; [exact Enan|]. rewrite Enan in Esp.
    apply splitAudioFileWith_NaN in Esp. subst segs. reflexivity. }
  right. exists q. split; [exact Eq|]. split; [exact Hd|]. rewrite Eq in *. clear Eq.
  destruct (splitAudioFileWith_spec _ _ _ _ _ _ _ _ Esp) as (tin & o & Hwin & _).
  assert (0 < segmentDuration)%Q as HL by reflexivity.
  assert (segmentDuration == 12600)%Q as HL' by reflexivity.
  assert (0 < q)%Q as Hd0 by lra.
  pose proof (below_ceiling segmentDuration q HL) as Hbelow.
  destruct (covers segmentDuration q HL Hd0) as [Hcov _].
  pose proof (lookup_planned segmentDuration q (Z.to_nat (Qceiling (q / segmentDuration))) segs)
    as Hlook.
  assert (length segs = Z.to_nat (Qceiling (q / segmentDuration))) as Hlen.
  { rewrite <- (length_map window), Hwin, length_map, length_seq. reflexivity. }
  split; [rewrite length_map; exact Hlen|]. split; [|split].
  - rewrite length_map, Hlen.
    destruct (Z.to_nat (Qceiling (q / segmentDuration))) as [|[|m]]; [| |lia].
    + change (inject_Z (Z.of_nat 0)) with 0%Q in Hcov. lra.
    + change (inject_Z (Z.of_nat 1)) with 1%Q in Hcov. lra.
  - intros i u Hu. rewrite list_lookup_fmap in Hu.
    destruct (segs !! i) as [s|] eqn:Es; [|discriminate]. injection Hu as <-.
    destruct (Hlook i s Hwin Es) as (Hlt & Hi & Hs & Hdur). simpl.
    rewrite Hi, Hs, Hdur. split; [reflexivity|]. split; [reflexivity|].
    split; [reflexivity|]. simpl.
    specialize (Hbelow i Hlt).
    pose proof (Q.le_min_l segmentDuration (q - inject_Z (Z.of_nat i) * segmentDuration)) as Hmin.
    split; [|split; [exact Hmin|lra]].
    destruct (Q.min_spec segmentDuration (q - inject_Z (Z.of_nat i) * segmentDuration))
      as [[_ ->]|[_ ->]]; lra.
  - rewrite map_map.
    rewrite (map_ext _ (fun s => snd (window s))) by reflexivity.
    rewrite <- (map_map window snd), Hwin, map_map. simpl.
    rewrite <- (map_map (fun j => Qmin segmentDuration
                                    (q - inject_Z (Z.of_nat j) * segmentDuration)) Num).
    rewrite sumJs_numbers. simpl. apply sum_planned_windows; assumption.
Qed.

Lemma handler_split_complete_result_witness :
  exists urls w',
    handler (scenario 30000 true None None) meetingEvent meetingWorld
      = (Normal (mkResponse 200 (SplitComplete "meeting.mp3" 3 urls 30000)), w') /\
    length urls = 3%nat.
Proof.
  do 2 eexists. split.
  { vm_compute. reflexivity. }
  refine (eq_sym (proj1 (proj2 (proj2
            (handler_split_complete_result (scenario 30000 true None None) meetingEvent
               meetingWorld 200 "meeting.mp3" 3 _ 30000 _ _))))).
  vm_compute. reflexivity.
Defined.

(** ** What the dispatcher asks for *)

Lemma split_unfold sep c r :
  split sep (String c r)
  = if Ascii.eqb c sep then EmptyString :: split sep r
    else match split sep r with
         | h :: t => String c h :: t
         | [] => [String c EmptyString]
         end.
Proof. reflexivity. Qed.

Lemma split_before_separator (b rest : string) :
  occurs "/" b = false -> split "/" (b +:+ "/" +:+ rest) = b :: split "/" rest.
Proof.
  induction b as [|c b IH]; intros Hb.
  - reflexivity.
  - simpl in Hb. apply orb_false_iff in Hb as [Hc Hb].
    rewrite append_cons, split_unfold, Hc, (IH Hb). reflexivity.
Qed.

(** The bucket is the third piece of an s3:// URL. *)
Lemma bucket_of_url (b key : string) :
  occurs "/" b = false -> split "/" ("s3://" +:+ b +:+ "/" +:+ key) !! 2%nat = Some b.
Proof.
  intros Hb.
  change ("s3://" +:+ b +:+ "/" +:+ key) with ("s3:" +:+ "/" +:+ "" +:+ "/" +:+ b +:+ "/" +:+ key).
  rewrite (split_before_separator "s3:") by reflexivity.
  rewrite (split_before_separator "") by reflexivity.
  rewrite (split_before_separator b) by exact Hb.
  reflexivity.
Qed.

Section DispatchRequests.

Variable env : Env.
Variables bucketName baseKey : string.
Hypothesis bucket_plain : occurs "/" bucketName = false.

(** The job name made for a segment at the clock reading number [c]. *)
Let jobNameAt (c : nat) (seg : Segment) : string :=
  "boardbreeze-segment-" +:+ pretty (seg_index seg) +:+ "-" +:+ pretty (dateNow env c).

Let requestAt (c i : nat) (seg : Segment) : TranscribeParams :=
  mkParams (jobNameAt (c + i) seg)
    ("s3://" +:+ bucketName +:+ "/" +:+ segmentKeyOf baseKey (seg_index seg))
    "mp3" "en-US" (Some bucketName)
    ("transcriptions/" +:+ jobNameAt (c + i) seg +:+ ".json").

Lemma triggerLoop_requests segments :
  forall acc w,
    exists jobs w',
      triggerLoop env (map (segmentUrlOf bucketName baseKey) segments) acc w
        = (Normal (acc ++ jobs)%list, w') /\
      calls w' = (calls w ++ map StartTranscriptionJob
                               (imap (requestAt (clockReads w)) segments))%list /\
      objects w' = objects w /\ tmp w' = tmp w /\
      Forall (fun job => exists i seg,
                segments !! i = Some seg /\
                job_jobName job = jobNameAt (clockReads w + i) seg /\
                job_segmentIndex job = seg_index seg /\
                job_status job = "STARTED") jobs.
Proof.
  induction segments as [|seg rest IH]; intros acc w.
  - exists [], w. simpl. rewrite !app_nil_r. unfold ret.
    repeat split; constructor.
  - cbn [map triggerLoop]. unfold bind at 1. unfold Date_now at 1.
    set (w0 := mkWorld _ _ _ _). set (now := dateNow env (clockReads w)).
    set (segment := segmentUrlOf bucketName baseKey seg).
    set (jobName := "boardbreeze-segment-" +:+ pretty (su_index segment) +:+ "-" +:+ pretty now).
    set (params := mkParams jobName (su_url segment) "mp3" "en-US" _ _).
    assert (params = requestAt (clockReads w) 0 seg) as Hparams.
    { subst params jobName segment now. unfold requestAt, jobNameAt, segmentUrlOf.
      cbn [su_url su_index]. rewrite Nat.add_0_r, (bucket_of_url _ _ bucket_plain).
      reflexivity. }
    assert (imap (requestAt (clockReads w)) (seg :: rest)
            = params :: imap (requestAt (S (clockReads w))) rest) as Himap.
    { rewrite Hparams. simpl. f_equal. apply imap_ext. intros i x _.
      unfold requestAt, compose. rewrite Nat.add_succ_r. reflexivity. }
    assert (forall jobs,
              Forall (fun job => exists i seg0,
                        rest !! i = Some seg0 /\
                        job_jobName job = jobNameAt (S (clockReads w) + i) seg0 /\
                        job_segmentIndex job = seg_index seg0 /\
                        job_status job = "STARTED") jobs ->
              Forall (fun job => exists i seg0,
                        (seg :: rest) !! i = Some seg0 /\
                        job_jobName job = jobNameAt (clockReads w + i) seg0 /\
                        job_segmentIndex job = seg_index seg0 /\
                        job_status job = "STARTED") jobs) as Hshift.
    { intros jobs Hjobs. eapply Forall_impl; [exact Hjobs|].
      intros job (i & seg0 & Hi & Hname & Hrest). exists (S i), seg0.
      split; [exact Hi|]. rewrite Nat.add_succ_r. split; [exact Hname|exact Hrest]. }
    unfold bind at 1. unfold try_catch at 1. unfold bind at 1.
    unfold transcribe_startTranscriptionJob at 1.
    destruct (startJob env w0 params) as [result|e] eqn:Estart; unfold ret at 1; cbv beta iota.
    + destruct (IH (acc ++ [mkJob jobName (su_index segment) "STARTED" result])%list
                   (log (StartTranscriptionJob params) w0))
        as (jobs & w' & Hrun & Hcalls & Hobj & Htmp & Hjobs).
      exists (mkJob jobName (su_index segment) "STARTED" result :: jobs), w'.
      split; [rewrite Hrun, <- app_assoc; reflexivity|].
      split; [rewrite Hcalls, Himap; simpl; rewrite <- app_assoc; reflexivity|].
      split; [rewrite Hobj; reflexivity|]. split; [rewrite Htmp; reflexivity|].
      constructor; [|apply Hshift, Hjobs].
      exists 0%nat, seg. split; [reflexivity|]. rewrite Nat.add_0_r.
      split; [reflexivity|]. split; reflexivity.
    + destruct (IH acc (log (StartTranscriptionJob params) w0))
        as (jobs & w' & Hrun & Hcalls & Hobj & Htmp & Hjobs).
      exists jobs, w'.
      split; [exact Hrun|].
      split; [rewrite Hcalls, Himap; simpl; rewrite <- app_assoc; reflexivity|].
      split; [rewrite Hobj; reflexivity|]. split; [rewrite Htmp; reflexivity|].
      apply Hshift, Hjobs.
Qed.

Lemma lookup_requests (c : nat) segments i seg :
  segments !! i = Some seg ->
  exists p,
    imap (requestAt c) segments !! i = Some p /\
    TranscriptionJobName p
      = "boardbreeze-segment-" +:+ pretty (seg_index seg) +:+ "-" +:+ pretty (dateNow env (c + i)) /\
    MediaFileUri p
      = "s3://" +:+ bucketName +:+ "/" +:+ segmentKeyOf baseKey (seg_index seg) /\
    MediaFormat p = "mp3" /\ LanguageCode p = "en-US" /\
    OutputBucketName p = Some bucketName /\
    OutputKey p = "transcriptions/" +:+ TranscriptionJobName p +:+ ".json".
Proof.
  intros Hi. exists (requestAt c i seg). rewrite list_lookup_imap, Hi.
  repeat split.
Qed.

End DispatchRequests.

(** X13. Given the entries uploadSegments returns for a bucket whose name
    has no slash, the dispatcher sends one request per segment, in the
    segments' order. The request for the segment at position [i] has the
    job name boardbreeze-segment-<index>-<now>, where <now> is what the
    [i]-th reading of the clock in this call returned, the segment's s3://
    URL as media, format mp3, language en-US, that same bucket as output
    bucket and the output key transcriptions/<job name>.json. Each returned
    entry carries the job name and the index of one of the segments, with
    status STARTED. The store and the local files are not touched. *)
Theorem triggerTranscriptionJobs_requests env bucketName baseKey segments w :
  occurs "/" bucketName = false ->
  exists jobs w' params,
    triggerTranscriptionJobs env (map (segmentUrlOf bucketName baseKey) segments) w
      = (Normal jobs, w') /\
    calls w' = (calls w ++ map StartTranscriptionJob params)%list /\
    objects w' = objects w /\ tmp w' = tmp w /\
    length params = length segments /\
    (forall i seg, segments !! i = Some seg ->
       exists p,
         params !! i = Some p /\
         TranscriptionJobName p
           = "boardbreeze-segment-" +:+ pretty (seg_index seg) +:+ "-"
             +:+ pretty (dateNow env (clockReads w + i)) /\
         MediaFileUri p
           = "s3://" +:+ bucketName +:+ "/" +:+ segmentKeyOf baseKey (seg_index seg) /\
         MediaFormat p = "mp3" /\ LanguageCode p = "en-US" /\
         OutputBucketName p = Some bucketName /\
         OutputKey p = "transcriptions/" +:+ TranscriptionJobName p +:+ ".json") /\
    Forall (fun job => exists i seg,
              segments !! i = Some seg /\
              job_jobName job
                = "boardbreeze-segment-" +:+ pretty (seg_index seg) +:+ "-"
                  +:+ pretty (dateNow env (clockReads w + i)) /\
              job_segmentIndex job = seg_index seg /\
              job_status job = "STARTED") jobs.
Proof.
  intros Hb. unfold triggerTranscriptionJobs.
  destruct (triggerLoop_requests env bucketName baseKey Hb segments [] w)
    as (jobs & w' & Hrun & Hcalls & Hobj & Htmp & Hjobs).
  eexists jobs, w', _. split; [exact Hrun|]. split; [exact Hcalls|].
  split; [exact Hobj|]. split; [exact Htmp|]. split; [apply length_imap|].
  split; [|exact Hjobs].
  intros i seg Hi. apply lookup_requests. exact Hi.
Qed.

Lemma triggerTranscriptionJobs_requests_witness :
  exists jobs w' params,
    triggerTranscriptionJobs (scenario 30000 true None None)
      (map (segmentUrlOf "bkt" "meeting") [mkSegment 0 "/tmp/segment_0_17.mp3" 0 12600])
      meetingWorld = (Normal jobs, w') /\
    calls w' = (calls meetingWorld ++ map StartTranscriptionJob params)%list /\
    length params = 1%nat.
Proof.
  destruct (triggerTranscriptionJobs_requests (scenario 30000 true None None) "bkt" "meeting"
              [mkSegment 0 "/tmp/segment_0_17.mp3" 0 12600] meetingWorld)
    as (jobs & w' & params & Hrun & Hcalls & _ & _ & Hlen & _).
  - reflexivity.
  - exists jobs, w', params. split; [exact Hrun|]. split; [exact Hcalls|exact Hlen].
Defined.

(** ** A failing ffmpeg run *)

Section SplitAborts.

Variable env : Env.
Variables (L T : Q) (tin : string) (e : JsError).
Hypothesis tin_not_segment : forall t, tin <> "/tmp/segment_" +:+ t.


End SplitAborts.


